(** * tui-do: the cursor / focus state machine of the list manager

    A shallow embedding of the Bubble Tea models of the repository:

    - the multi-list screen model (lists, keys, selectedList, cursor,
      listStartOffset and the two text inputs; [initialModel], [Update],
      [screenItems], [SaveItems], [loadItems]), at the top level;
    - the single-list variant of [src/main.go], in [Module Single].

    Go's [int] is modelled by [Z]: every integer the models compute is a
    slice length plus or minus a small constant, so the 64-bit wrap-around
    is never reached.  A Go slice is a [list] (a nil slice and an empty one
    behave alike in this code), and an index expression that would panic
    makes the enclosing function return [None].

    The map [map[string][]listItem] of the model is a
    [gmap string (list listItem)]; a lookup of a missing key gives the empty
    slice, as the zero value does in Go.  The model's map is never nil:
    [loadItems] makes a map for an absent or empty file, and every file
    [SaveItems] wrote has a "lists" object.  Only in [jsonData] can the map
    be nil ([None]): that is what [json.Unmarshal] leaves for a file without
    a "lists" member.  The screen model is not defined on such a load (in
    Go the first insertion into the nil map would panic). *)

From stdpp Require Import gmap strings list fin_maps.
From Stdlib Require Import ZArith Lia ZifyBool Ascii.

Open Scope string_scope.
Open Scope list_scope.
Open Scope Z_scope.

(** ** Messages and the text-input widget (bubbles/textinput) *)

(** [tea.Msg]: a key press, identified by [msg.String()], or any other
    message (caret blink ticks, window events). *)
Inductive Msg : Type :=
  | KeyMsg (key : string)
  | OtherMsg.

(** The two lipgloss styles the models assign to a field. *)
Inductive Style : Type := focusedStyle | noStyle.

(** The part of [textinput.Model] the models read or write. *)
Record textinput : Type := mkTextInput {
  Value : string;
  focus : bool;
  PromptStyle : Style;
  TextStyle : Style
}.

(** What the models consume from outside the repository: Go's
    [strings.TrimSpace] and the editing primitive of the text field (how a
    message changes the text of a focused field). *)
Class TextLib : Type := {
  TrimSpace : string -> string;
  fieldEdit : Msg -> string -> string
}.

Definition ti_New : textinput :=
  {| Value := ""; focus := false; PromptStyle := noStyle; TextStyle := noStyle |}.

Definition ti_Focus (t : textinput) : textinput :=
  {| Value := Value t; focus := true;
     PromptStyle := PromptStyle t; TextStyle := TextStyle t |}.

Definition ti_Blur (t : textinput) : textinput :=
  {| Value := Value t; focus := false;
     PromptStyle := PromptStyle t; TextStyle := TextStyle t |}.

Definition ti_SetValue (s : string) (t : textinput) : textinput :=
  {| Value := s; focus := focus t;
     PromptStyle := PromptStyle t; TextStyle := TextStyle t |}.

Definition ti_SetStyle (st : Style) (t : textinput) : textinput :=
  {| Value := Value t; focus := focus t; PromptStyle := st; TextStyle := st |}.

(** [textinput.Model.Update]: a field that is not focused ignores the
    message; a focused one edits its text and keeps its focus. *)
Definition ti_Update `{TextLib} (msg : Msg) (t : textinput) : textinput :=
  if focus t then ti_SetValue (fieldEdit msg (Value t)) t else t.

(** ** Go slices *)

Definition len {A : Type} (l : list A) : Z := Z.of_nat (length l).

(** [l[i]]: panics (here [None]) outside [0 <= i < len l]. *)
Definition index {A : Type} (l : list A) (i : Z) : option A :=
  if 0 <=? i then l !! Z.to_nat i else None.

(** The loop [for i, x := range l { if i != skip { out = append(out, x) } }],
    with [pos] the index of the head of [l]. *)
Fixpoint skip_index {A : Type} (skip pos : Z) (l : list A) : list A :=
  match l with
  | [] => []
  | x :: r =>
      if pos =? skip then skip_index skip (pos + 1) r
      else x :: skip_index skip (pos + 1) r
  end.

(** ** Data model *)

Record listItem : Type := mkItem {
  Item : string;
  Completed : bool
}.

Record jsonData : Type := mkJsonData {
  Keys : list string;
  Lists : option (gmap string (list listItem))
}.

Record model : Type := mkModel {
  lists : gmap string (list listItem);
  keys : list string;
  selectedList : Z;
  cursor : Z;
  textInput : textinput;
  newListTextInput : textinput;
  listStartOffset : Z
}.

(** [m.lists[k]]: the zero value (empty slice) for a missing key. *)
Definition mapget (l : gmap string (list listItem)) (k : string) : list listItem :=
  default [] (l !! k).

Inductive screenItemKind : Type := kindKey | kindItem | kindNewItem | kindNewList.

Record screenItem : Type := mkScreenItem {
  kind : screenItemKind;
  keyIdx : Z;
  itemIdx : Z
}.

(** Field setters (Go assigns through the [*model] pointer). *)
Definition set_cursor (c : Z) (m : model) : model :=
  mkModel (lists m) (keys m) (selectedList m) c
          (textInput m) (newListTextInput m) (listStartOffset m).

Definition set_selectedList (s : Z) (m : model) : model :=
  mkModel (lists m) (keys m) s (cursor m)
          (textInput m) (newListTextInput m) (listStartOffset m).

Definition set_lists (l : gmap string (list listItem)) (m : model) : model :=
  mkModel l (keys m) (selectedList m) (cursor m)
          (textInput m) (newListTextInput m) (listStartOffset m).

Definition set_keys (k : list string) (m : model) : model :=
  mkModel (lists m) k (selectedList m) (cursor m)
          (textInput m) (newListTextInput m) (listStartOffset m).

Definition set_listStartOffset (o : Z) (m : model) : model :=
  mkModel (lists m) (keys m) (selectedList m) (cursor m)
          (textInput m) (newListTextInput m) o.

Definition set_textInput (t : textinput) (m : model) : model :=
  mkModel (lists m) (keys m) (selectedList m) (cursor m)
          t (newListTextInput m) (listStartOffset m).

Definition set_newListTextInput (t : textinput) (m : model) : model :=
  mkModel (lists m) (keys m) (selectedList m) (cursor m)
          (textInput m) t (listStartOffset m).

Definition setCursor (new : Z) (m : model) : model :=
  set_cursor (new + listStartOffset m) m.

Definition getItemCursor (m : model) : Z :=
  cursor m - listStartOffset m.

Definition blurTextInput (m : model) : model :=
  set_textInput (ti_SetStyle noStyle (ti_Blur (textInput m))) m.

Definition blurListTextInput (m : model) : model :=
  set_newListTextInput (ti_SetStyle noStyle (ti_Blur (newListTextInput m))) m.

Definition focusTextInput (m : model) : model :=
  set_textInput (ti_Focus (ti_SetStyle focusedStyle (textInput m))) m.

Definition focusListTextInput (m : model) : model :=
  set_newListTextInput (ti_Focus (ti_SetStyle focusedStyle (newListTextInput m))) m.

(** [screenItems]: key rows, item rows of the selected list, the add-item
    row (only with at least one key) and the add-list row. *)
Definition screenItems (m : model) : option (list screenItem) :=
  let keyRows :=
    imap (fun i _ => mkScreenItem kindKey (Z.of_nat i) 0) (keys m) in
  itemRows ←
    (if 0 <? len (keys m) then
       key ← index (keys m) (selectedList m);
       Some (imap (fun i _ => mkScreenItem kindItem 0 (Z.of_nat i))
                  (mapget (lists m) key))
     else Some []);
  let newItemRow :=
    if 0 <? len (keys m) then [mkScreenItem kindNewItem 0 0] else [] in
  Some (keyRows ++ itemRows ++ newItemRow ++ [mkScreenItem kindNewList 0 0]).

(** [initialModel], from the map and the keys [loadItems] returned. *)
Definition initialModel (loaded : gmap string (list listItem) * list string) : option model :=
  let '(lists, keys) := loaded in
  let selectedList := 0 in
  let ti := ti_New in
  let newListTi := ti_New in
  let listStartOffset := len keys in
  cursor ←
    (if 0 <? len keys then
       key ← index keys selectedList;
       Some (len (mapget lists key) + listStartOffset)
     else Some 0);
  let m := mkModel lists keys selectedList cursor ti newListTi listStartOffset in
  Some (if 0 <? len keys
        then blurListTextInput (focusTextInput m)
        else blurTextInput (focusListTextInput m)).

(** ** The update function of the multi-list model *)

(** [tea.Cmd] as far as the models are concerned: [tea.Quit], or a command
    that only drives the caret animation ([nil], [textinput.Blink], a
    [tea.Batch] of those). *)
Inductive Cmd : Type := cmdQuit | cmdOther.

(** What one call of [Update] yields: the model, the command, and the
    snapshot handed to [SaveItems] when the call saved. *)
Record outcome : Type := mkOutcome {
  next : model;
  cmd : Cmd;
  saved : option jsonData
}.

(** The [jsonData] value [SaveItems] marshals. *)
Definition snapshot (m : model) : jsonData :=
  {| Keys := keys m; Lists := Some (lists m) |}.

(** The tail of [Update]: both text inputs receive the message. *)
Definition updateInputs `{TextLib} (msg : Msg) (m : model) : outcome :=
  let m := set_textInput (ti_Update msg (textInput m)) m in
  let m := set_newListTextInput (ti_Update msg (newListTextInput m)) m in
  mkOutcome m cmdOther None.

(** [m.lists[m.keys[m.selectedList]][itemCursor].Completed = !completed]. *)
Definition toggleItem (items : list listItem) (itemCursor : Z) (m : model) : option model :=
  it ← index items itemCursor;
  key ← index (keys m) (selectedList m);
  cur ← index (mapget (lists m) key) itemCursor;
  Some (set_lists
          (<[key := <[Z.to_nat itemCursor := mkItem (Item cur) (negb (Completed it))]>
                      (mapget (lists m) key)]> (lists m)) m).

(** Case ["d"] with the cursor on a key row. *)
Definition deleteList (m : model) : option outcome :=
  let deleteKeyIdx := cursor m in
  deleteKey ← index (keys m) deleteKeyIdx;
  let newKeys := skip_index deleteKeyIdx 0 (keys m) in
  let m := set_lists (delete deleteKey (lists m)) m in
  if len newKeys =? 0 then
    let m := set_keys newKeys m in
    let m := set_selectedList 0 m in
    let m := set_listStartOffset 0 m in
    let m := set_cursor 0 m in
    let m := blurTextInput m in
    let m := focusListTextInput m in
    Some (mkOutcome m cmdOther None)
  else
    let m :=
      if deleteKeyIdx =? selectedList m then
        let m := set_selectedList (deleteKeyIdx - 1) m in
        if selectedList m <? 0 then set_selectedList 0 m else m
      else if deleteKeyIdx <? selectedList m then
        set_selectedList (selectedList m - 1) m
      else m in
    let m := set_keys newKeys m in
    let numKeys := len newKeys in
    let m := set_listStartOffset numKeys m in
    let m := set_cursor (selectedList m) m in
    let m := blurTextInput m in
    let m := blurListTextInput m in
    Some (mkOutcome m cmdOther None).

(** Case ["d"] with the cursor past the key rows. *)
Definition deleteItem `{TextLib} (msg : Msg) (items : list listItem)
    (numItems itemCursor : Z) (m : model) : option outcome :=
  if (itemCursor <? 0) || (numItems <=? itemCursor) then
    Some (updateInputs msg m)
  else
    let newItems := skip_index itemCursor 0 items in
    let m := setCursor (len newItems - 1) m in
    key ← index (keys m) (selectedList m);
    let m := set_lists (<[key := newItems]> (lists m)) m in
    Some (updateInputs msg m).

(** Case ["tab", "shift+tab", "up", "down"]: step, set the focus, wrap. *)
Definition moveCursor (s : string) (total newListIdx newItemIdx : Z) (m : model) : outcome :=
  let m :=
    if String.eqb s "up" || String.eqb s "shift+tab"
    then set_cursor (cursor m - 1) m
    else set_cursor (cursor m + 1) m in
  let m :=
    if (0 <=? newItemIdx) && (cursor m =? newItemIdx) then
      blurListTextInput (focusTextInput m)
    else if cursor m =? newListIdx then
      blurTextInput (focusListTextInput m)
    else
      blurTextInput (blurListTextInput m) in
  let m :=
    if total <=? cursor m then set_cursor 0 m
    else if cursor m <? 0 then set_cursor (total - 1) m
    else m in
  mkOutcome m cmdOther None.

(** Case ["enter"]. *)
Definition enterKey `{TextLib} (msg : Msg) (items : list listItem)
    (numKeys numItems newListIdx newItemIdx itemCursor : Z) (m : model) : option outcome :=
  if cursor m <? numKeys then
    Some (updateInputs msg (set_selectedList (cursor m) m))
  else if (0 <=? itemCursor) && (itemCursor <? numItems) then
    m ← toggleItem items itemCursor m;
    Some (updateInputs msg m)
  else if (0 <=? newItemIdx) && (cursor m =? newItemIdx) then
    let text := TrimSpace (Value (textInput m)) in
    if String.eqb text "" then Some (updateInputs msg m)
    else
      key ← index (keys m) (selectedList m);
      let m := set_lists (<[key := items ++ [mkItem text false]]> (lists m)) m in
      let m := set_cursor (cursor m + 1) m in
      let m := set_textInput (ti_SetValue "" (textInput m)) m in
      Some (mkOutcome m cmdOther None)
  else if cursor m =? newListIdx then
    let text := TrimSpace (Value (newListTextInput m)) in
    if String.eqb text "" then Some (updateInputs msg m)
    else
      let m := set_keys (keys m ++ [text]) m in
      let m := set_lists (<[text := []]> (lists m)) m in
      let m := set_selectedList (len (keys m) - 1) m in
      let m := set_listStartOffset (len (keys m)) m in
      let m := set_cursor (listStartOffset m) m in
      let m := set_newListTextInput (ti_SetValue "" (newListTextInput m)) m in
      let m := set_textInput (ti_SetStyle focusedStyle (ti_Focus (textInput m))) m in
      let m := set_newListTextInput (ti_SetStyle noStyle (ti_Blur (newListTextInput m))) m in
      Some (mkOutcome m cmdOther None)
  else Some (updateInputs msg m).

(** The rows of the selected list, as [Update] reads them at its start. *)
Definition selectedItems (m : model) : option (list listItem) :=
  if 0 <? len (keys m) then
    key ← index (keys m) (selectedList m);
    Some (mapget (lists m) key)
  else Some [].

Definition Update `{TextLib} (msg : Msg) (m : model) : option outcome :=
  let numKeys := len (keys m) in
  items ← selectedItems m;
  let numItems := len items in
  let inputsCount := if 0 <? numKeys then 2 else 1 in
  let total := numKeys + numItems + inputsCount in
  let newListIdx := total - 1 in
  let newItemIdx := if inputsCount =? 2 then total - 2 else -1 in
  let itemCursor := getItemCursor m in
  match msg with
  | KeyMsg s =>
      if String.eqb s "ctrl+c" || String.eqb s "q" then
        if String.eqb s "q" && (itemCursor =? numItems) && (0 <? numKeys)
        then Some (updateInputs msg m)
        else Some (mkOutcome m cmdQuit (Some (snapshot m)))
      else if String.eqb s "d" then
        if cursor m <? numKeys then deleteList m
        else deleteItem msg items numItems itemCursor m
      else if String.eqb s "tab" || String.eqb s "shift+tab"
              || String.eqb s "up" || String.eqb s "down" then
        Some (moveCursor s total newListIdx newItemIdx m)
      else if String.eqb s "enter" then
        enterKey msg items numKeys numItems newListIdx newItemIdx itemCursor m
      else if String.eqb s " " then
        if (0 <=? itemCursor) && (itemCursor <? numItems) then
          m ← toggleItem items itemCursor m;
          Some (updateInputs msg m)
        else Some (updateInputs msg m)
      else Some (updateInputs msg m)
  | OtherMsg => Some (updateInputs msg m)
  end.

(** The number of screen rows of a model (the [total] of [Update]). *)
Definition total (m : model) : option Z :=
  items ← selectedItems m;
  Some (len (keys m) + len items + (if 0 <? len (keys m) then 2 else 1)).

(** The event loop: messages are delivered one at a time until [tea.Quit]
    is returned; the result is the last model and the snapshots saved. *)
Fixpoint run `{TextLib} (msgs : list Msg) (m : model) : option (model * list jsonData) :=
  match msgs with
  | [] => Some (m, [])
  | msg :: rest =>
      o ← Update msg m;
      match cmd o with
      | cmdQuit => Some (next o, from_option (fun d => [d]) [] (saved o))
      | cmdOther =>
          r ← run rest (next o);
          Some (r.1, from_option (fun d => [d]) [] (saved o) ++ r.2)
      end
  end.

(** A program start: [loadItems] returned [loaded]. *)
Definition start `{TextLib} (loaded : gmap string (list listItem) * list string)
    (msgs : list Msg) : option (model * list jsonData) :=
  m ← initialModel loaded;
  run msgs m.

(** ** A concrete text library, for running the models *)

(** The ASCII white space [strings.TrimSpace] removes: tab, line feed,
    vertical tab, form feed, carriage return and space. *)
Definition is_space (a : ascii) : bool :=
  let n := nat_of_ascii a in
  ((9 <=? n) && (n <=? 13))%nat || (n =? 32)%nat.

Fixpoint trim_left (s : string) : string :=
  match s with
  | String a r => if is_space a then trim_left r else s
  | EmptyString => EmptyString
  end.

Definition string_rev (s : string) : string :=
  String.string_of_list_ascii (rev (String.list_ascii_of_string s)).

(** [strings.TrimSpace] on ASCII text: leading and trailing white space
    is removed. *)
Definition ascii_TrimSpace (s : string) : string :=
  string_rev (trim_left (string_rev (trim_left s))).

(** A field whose caret stays at the end: a one-character key is appended,
    any other message leaves the text alone. *)
Definition append_rune (msg : Msg) (v : string) : string :=
  match msg with
  | KeyMsg (String a EmptyString) => String.append v (String a EmptyString)
  | _ => v
  end.

Definition SimpleLib : TextLib :=
  {| TrimSpace := ascii_TrimSpace; fieldEdit := append_rune |}.

(** ** Reachable states *)

(** The states the running program goes through: the initial model of any
    loaded snapshot, and every model [Update] returns from one of them. *)
Inductive reachable `{TextLib} : model -> Prop :=
  | reach_init loaded m :
      initialModel loaded = Some m -> reachable m
  | reach_step m msg o :
      reachable m -> Update msg m = Some o -> reachable (next o).

(** The number of input rows: the add-item row exists only with a key. *)
Definition inputsCount (m : model) : Z :=
  if 0 <? len (keys m) then 2 else 1.

(** The invariant of the screen model. *)
Record Inv (m : model) : Prop := mkInv {
  inv_offset : listStartOffset m = len (keys m);
  inv_selected : 0 < len (keys m) -> 0 <= selectedList m < len (keys m);
  inv_rows : exists items,
      selectedItems m = Some items /\
      0 <= cursor m < len (keys m) + len items + inputsCount m /\
      (focus (textInput m) = true <->
         0 < len (keys m) /\ cursor m = len (keys m) + len items) /\
      (focus (newListTextInput m) = true ->
         cursor m = len (keys m) + len items + inputsCount m - 1)
}.




(** ** Persistence: [SaveItems] and [loadItems]

    The file [~/.tui-do/.tui-do.json] is the only state outside the model:
    [None] when it does not exist, its contents otherwise.  [json.Marshal]
    and [json.Unmarshal] are split in two layers: the mapping between
    [jsonData] and JSON values, which the struct tags of the repository
    determine and which is written out here, and the JSON text syntax,
    which belongs to [encoding/json] and is a parameter ([JsonText]). *)

#[warnings="-register-all"]
Inductive json : Type :=
  | JNull
  | JBool (b : bool)
  | JString (s : string)
  | JArray (elems : list json)
  | JObject (members : list (string * json)).

Class JsonText : Type := {
  render : json -> string;
  parse : string -> option json
}.

Definition encode_item (it : listItem) : json :=
  JObject [("item", JString (Item it)); ("completed", JBool (Completed it))].

Definition encode_items (l : list listItem) : json :=
  JArray (map encode_item l).

Definition encode_lists (l : option (gmap string (list listItem))) : json :=
  match l with
  | Some l => JObject (map (fun kv => (kv.1, encode_items kv.2)) (map_to_list l))
  | None => JNull
  end.

Definition encode_data (d : jsonData) : json :=
  JObject [("keys", JArray (map JString (Keys d)));
           ("lists", encode_lists (Lists d))].

(** The member of an object a struct field is read from: the last one of
    that name. *)
Definition member (name : string) (members : list (string * json)) : option json :=
  foldl (fun acc kv => if String.eqb kv.1 name then Some kv.2 else acc) None members.

(** A struct field: absent or [null] leaves the zero value. *)
Definition decode_field {A : Type} (name : string) (dec : json -> option A)
    (zero : A) (members : list (string * json)) : option A :=
  match member name members with
  | None | Some JNull => Some zero
  | Some j => dec j
  end.

Definition decode_string (j : json) : option string :=
  match j with JString s => Some s | _ => None end.

Definition decode_bool (j : json) : option bool :=
  match j with JBool b => Some b | _ => None end.

Definition decode_item (j : json) : option listItem :=
  match j with
  | JObject members =>
      s ← decode_field "item" decode_string "" members;
      b ← decode_field "completed" decode_bool false members;
      Some (mkItem s b)
  | JNull => Some (mkItem "" false)
  | _ => None
  end.

Definition decode_items (j : json) : option (list listItem) :=
  match j with
  | JArray elems => mapM decode_item elems
  | JNull => Some []
  | _ => None
  end.

Definition decode_keys (j : json) : option (list string) :=
  match j with
  | JArray elems =>
      mapM (fun e => match e with
                     | JNull => Some ""
                     | _ => decode_string e
                     end) elems
  | JNull => Some []
  | _ => None
  end.

(** An object read into a Go map: a later member of the same name
    overwrites an earlier one. *)
Definition decode_lists (j : json) : option (option (gmap string (list listItem))) :=
  match j with
  | JObject members =>
      kvs ← mapM (fun kv => its ← decode_items kv.2; Some (kv.1, its)) members;
      Some (Some (list_to_map (reverse kvs)))
  | JNull => Some None
  | _ => None
  end.

Definition decode_data (j : json) : option jsonData :=
  match j with
  | JObject members =>
      ks ← decode_field "keys" decode_keys [] members;
      ls ← decode_field "lists" decode_lists None members;
      Some (mkJsonData ks ls)
  | JNull => Some (mkJsonData [] None)
  | _ => None
  end.

(** [SaveItems], on the path where the directory and the file can be
    written: the file now holds the marshalled snapshot. *)
Definition SaveItems `{JsonText} (m : model) (file : option string) : option string :=
  let data := snapshot m in
  let asStr := render (encode_data data) in
  Some asStr.

(** [loadItems]: [None] is [log.Fatal]; the map returned is [None] when it
    is nil. *)
Definition loadItems `{JsonText} (file : option string)
    : option (option (gmap string (list listItem)) * list string) :=
  match file with
  | None => Some (Some ∅, [])
  | Some contents =>
      if (String.length contents =? 0)%nat then Some (Some ∅, [])
      else
        j ← parse contents;
        data ← decode_data j;
        Some (Lists data, Keys data)
  end.

(** ** A concrete JSON text syntax, for running [SaveItems] and [loadItems]

    Compact JSON without white space and without numbers; in a string only
    the quote and the backslash are escaped. *)

Definition quote : ascii := Ascii.ascii_of_nat 34.
Definition backslash : ascii := Ascii.ascii_of_nat 92.

Fixpoint escape (s : list ascii) : list ascii :=
  match s with
  | [] => []
  | c :: r =>
      if Ascii.eqb c quote || Ascii.eqb c backslash
      then backslash :: c :: escape r
      else c :: escape r
  end.

Definition print_string (s : string) : list ascii :=
  quote :: escape (String.list_ascii_of_string s) ++ [quote].

Definition chars (s : string) : list ascii := String.list_ascii_of_string s.

Fixpoint print (j : json) : list ascii :=
  match j with
  | JNull => chars "null"
  | JBool true => chars "true"
  | JBool false => chars "false"
  | JString s => print_string s
  | JArray elems =>
      chars "[" ++
      (fix go (l : list json) : list ascii :=
         match l with
         | [] => []
         | [x] => print x
         | x :: r => print x ++ chars "," ++ go r
         end) elems ++
      chars "]"
  | JObject members =>
      chars "{" ++
      (fix go (l : list (string * json)) : list ascii :=
         match l with
         | [] => []
         | [(k, v)] => print_string k ++ chars ":" ++ print v
         | (k, v) :: r => print_string k ++ chars ":" ++ print v ++ chars "," ++ go r
         end) members ++
      chars "}"
  end.

(** [strip p s]: the rest of [s] after the prefix [p]. *)
Fixpoint strip (p s : list ascii) : option (list ascii) :=
  match p, s with
  | [], _ => Some s
  | a :: p', b :: s' => if Ascii.eqb a b then strip p' s' else None
  | _ :: _, [] => None
  end.

(** The characters of a string literal up to its closing quote. *)
Fixpoint scan_string (s acc : list ascii) : option (string * list ascii) :=
  match s with
  | [] => None
  | c :: r =>
      if Ascii.eqb c quote then Some (String.string_of_list_ascii (rev acc), r)
      else if Ascii.eqb c backslash then
        match r with
        | e :: r' => scan_string r' (e :: acc)
        | [] => None
        end
      else scan_string r (c :: acc)
  end.

Fixpoint scan_value (fuel : nat) (s : list ascii) : option (json * list ascii) :=
  match fuel with
  | O => None
  | S fuel =>
      match strip (chars "null") s with Some r => Some (JNull, r) | None =>
      match strip (chars "true") s with Some r => Some (JBool true, r) | None =>
      match strip (chars "false") s with Some r => Some (JBool false, r) | None =>
      match strip (chars "[]") s with Some r => Some (JArray [], r) | None =>
      match strip (chars "{}") s with Some r => Some (JObject [], r) | None =>
      match strip [quote] s with
      | Some r => p ← scan_string r []; Some (JString p.1, p.2)
      | None =>
      match strip (chars "[") s with Some r => scan_elems fuel r [] | None =>
      match strip (chars "{") s with Some r => scan_members fuel r [] | None =>
      None
      end end end end end end end end
  end
with scan_elems (fuel : nat) (s : list ascii) (acc : list json)
    : option (json * list ascii) :=
  match fuel with
  | O => None
  | S fuel =>
      p ← scan_value fuel s;
      match strip (chars ",") p.2 with
      | Some r => scan_elems fuel r (p.1 :: acc)
      | None =>
          r ← strip (chars "]") p.2;
          Some (JArray (rev (p.1 :: acc)), r)
      end
  end
with scan_members (fuel : nat) (s : list ascii) (acc : list (string * json))
    : option (json * list ascii) :=
  match fuel with
  | O => None
  | S fuel =>
      r ← strip [quote] s;
      k ← scan_string r [];
      r ← strip (chars ":") k.2;
      p ← scan_value fuel r;
      match strip (chars ",") p.2 with
      | Some r => scan_members fuel r ((k.1, p.1) :: acc)
      | None =>
          r ← strip (chars "}") p.2;
          Some (JObject (rev ((k.1, p.1) :: acc)), r)
      end
  end.

Definition CompactJson : JsonText :=
  {| render := fun j => String.string_of_list_ascii (print j);
     parse := fun s =>
       match scan_value (S (String.length s)) (chars s) with
       | Some (j, []) => Some j
       | _ => None
       end |}.

(** ** The single-list variant ([src/main.go]) *)

Module Single.

Record model : Type := mkModel {
  items : list listItem;
  cursor : Z;
  textInput : textinput
}.

Record outcome : Type := mkOutcome {
  next : model;
  cmd : Cmd;
  saved : option (list listItem)
}.

Definition initialModel (loaded : list listItem) : model :=
  let items := loaded in
  let ti := ti_SetStyle focusedStyle (ti_Focus ti_New) in
  mkModel items (len items) ti.

(** [m.items[m.cursor].Completed] is flipped. *)
Definition toggle (m : model) : option model :=
  it ← index (items m) (cursor m);
  Some (mkModel (<[Z.to_nat (cursor m) := mkItem (Item it) (negb (Completed it))]> (items m))
                (cursor m) (textInput m)).

Definition updateInput `{TextLib} (msg : Msg) (m : model) : outcome :=
  mkOutcome (mkModel (items m) (cursor m) (ti_Update msg (textInput m))) cmdOther None.

Definition Update `{TextLib} (msg : Msg) (m : model) : option outcome :=
  match msg with
  | KeyMsg s =>
      if String.eqb s "ctrl+c" || String.eqb s "q" then
        if String.eqb s "q" && (cursor m =? len (items m))
        then Some (updateInput msg m)
        else Some (mkOutcome m cmdQuit (Some (items m)))
      else if String.eqb s "tab" || String.eqb s "shift+tab"
              || String.eqb s "up" || String.eqb s "down" then
        let c :=
          if String.eqb s "up" || String.eqb s "shift+tab"
          then cursor m - 1 else cursor m + 1 in
        let c :=
          if len (items m) <? c then 0
          else if c <? 0 then len (items m)
          else c in
        let ti :=
          if len (items m) =? c
          then ti_SetStyle focusedStyle (ti_Focus (textInput m))
          else ti_SetStyle noStyle (ti_Blur (textInput m)) in
        Some (mkOutcome (mkModel (items m) c ti) cmdOther None)
      else if String.eqb s "enter" then
        if negb (cursor m =? len (items m)) then
          m ← toggle m;
          Some (updateInput msg m)
        else
          let text := Value (textInput m) in
          let m := mkModel (items m ++ [mkItem text false]) (cursor m) (textInput m) in
          let m := mkModel (items m) (cursor m + 1) (textInput m) in
          let m := mkModel (items m) (cursor m) (ti_SetValue "" (textInput m)) in
          Some (mkOutcome m cmdOther None)
      else if String.eqb s " " then
        if negb (cursor m =? len (items m)) then
          m ← toggle m;
          Some (updateInput msg m)
        else Some (updateInput msg m)
      else Some (updateInput msg m)
  | OtherMsg => Some (updateInput msg m)
  end.

(** The event loop of the single-list program; the saved values are the
    item slices handed to [json.Marshal]. *)
Fixpoint run `{TextLib} (msgs : list Msg) (m : model)
    : option (model * list (list listItem)) :=
  match msgs with
  | [] => Some (m, [])
  | msg :: rest =>
      o ← Update msg m;
      match cmd o with
      | cmdQuit => Some (next o, from_option (fun d => [d]) [] (saved o))
      | cmdOther =>
          r ← run rest (next o);
          Some (r.1, from_option (fun d => [d]) [] (saved o) ++ r.2)
      end
  end.

Definition start `{TextLib} (loaded : list listItem) (msgs : list Msg)
    : option (model * list (list listItem)) :=
  run msgs (initialModel loaded).

(** [SaveItems] of [src/main.go]: the file holds the marshalled item slice,
    a bare JSON array. *)
Definition SaveItems `{JsonText} (m : model) (file : option string) : option string :=
  let asStr := render (encode_items (items m)) in
  Some asStr.

(** [loadItems] of [src/main.go]: [None] is [log.Fatal]. *)
Definition loadItems `{JsonText} (file : option string) : option (list listItem) :=
  let items := [] in
  match file with
  | None => Some items
  | Some data =>
      if (String.length data =? 0)%nat then Some items
      else
        j ← parse data;
        decode_items j
  end.

End Single.

(** ** The first variant: a plain list with a selection set

    The last Go file of [src/unnamed/part_001].  Every method has a value
    receiver: it works on a copy of the model, and only what it returns, or
    writes through the shared map, reaches the caller. *)

Module Basic.

Record model : Type := mkModel {
  items : list listItem;
  cursor : Z;
  selected : gset Z
}.

Record outcome : Type := mkOutcome {
  next : model;
  cmd : Cmd;
  saved : option (list listItem)
}.

(** [LoadItems]: the result is the receiver's copy as the method leaves it
    ([None] is [log.Fatal]); the caller's model is not touched. *)
Definition LoadItems `{JsonText} (m : model) (file : option string) : option model :=
  let items := [] in
  match file with
  | None => Some (mkModel items (cursor m) (selected m))
  | Some data =>
      if (String.length data =? 0)%nat then Some (mkModel items (cursor m) (selected m))
      else
        j ← parse data;
        items ← decode_items j;
        Some (mkModel items (cursor m) (selected m))
  end.

Definition initialModel `{JsonText} (file : option string) : option model :=
  let m := mkModel [] 0 ∅ in
  _ ← LoadItems m file;
  Some m.

Definition Update (msg : Msg) (m : model) : outcome :=
  match msg with
  | KeyMsg s =>
      if String.eqb s "ctrl+c" || String.eqb s "q" then
        mkOutcome m cmdQuit (Some (items m))
      else if String.eqb s "up" || String.eqb s "k" then
        let m := if 0 <? cursor m
                 then mkModel (items m) (cursor m - 1) (selected m) else m in
        mkOutcome m cmdOther None
      else if String.eqb s "down" || String.eqb s "j" then
        let m := if cursor m <? len (items m) - 1
                 then mkModel (items m) (cursor m + 1) (selected m) else m in
        mkOutcome m cmdOther None
      else if String.eqb s "enter" || String.eqb s " " then
        let m := if decide (cursor m ∈ selected m)
                 then mkModel (items m) (cursor m) (selected m ∖ {[cursor m]})
                 else mkModel (items m) (cursor m) ({[cursor m]} ∪ selected m) in
        mkOutcome m cmdOther None
      else mkOutcome m cmdOther None
  | OtherMsg => mkOutcome m cmdOther None
  end.

Fixpoint run (msgs : list Msg) (m : model) : model * list (list listItem) :=
  match msgs with
  | [] => (m, [])
  | msg :: rest =>
      let o := Update msg m in
      match cmd o with
      | cmdQuit => (next o, from_option (fun d => [d]) [] (saved o))
      | cmdOther =>
          let r := run rest (next o) in
          (r.1, from_option (fun d => [d]) [] (saved o) ++ r.2)
      end
  end.

(** The program: [initialModel], then the event loop. *)
Definition start `{JsonText} (file : option string) (msgs : list Msg)
    : option (model * list (list listItem)) :=
  m ← initialModel file;
  Some (run msgs m).

End Basic.

(** The messages [Update] of the multi-list model has a case for. *)
Definition handled (msg : Msg) : bool :=
  match msg with
  | KeyMsg s =>
      String.eqb s "ctrl+c" || String.eqb s "q" || String.eqb s "d"
      || String.eqb s "tab" || String.eqb s "shift+tab"
      || String.eqb s "up" || String.eqb s "down"
      || String.eqb s "enter" || String.eqb s " "
  | OtherMsg => false
  end.

(** The two keys that toggle an item. *)
Definition toggleKey (space : bool) : Msg :=
  KeyMsg (if space then " " else "enter").


(** ** Example models

    The scenarios of the specification, as snapshots and as the models the
    program reaches from them. *)

Definition milk : listItem := mkItem "milk" false.
Definition eggs : listItem := mkItem "eggs" false.

(** One list "Groceries" holding milk and eggs. *)
Definition groceries : gmap string (list listItem) * list string :=
  ({["Groceries" := [milk; eggs]]}, ["Groceries"]).

(** ... with the cursor moved up from the add-item row to "eggs". *)
Definition on_eggs : model :=
  mkModel groceries.1 groceries.2 0 2 ti_New ti_New 1.

(** Two empty lists "A" and "B". *)
Definition two_lists : gmap string (list listItem) * list string :=
  (<["A" := []]> (<["B" := []]> ∅), ["A"; "B"]).

(** ... with "B" selected and the cursor on the key row of "A". *)
Definition on_key_A : model :=
  mkModel two_lists.1 two_lists.2 1 0 ti_New ti_New 2.


(** One empty list "A", as the program starts on it: the cursor is on the
    add-item row. *)
Definition one_list : gmap string (list listItem) * list string :=
  ({["A" := []]}, ["A"]).

Definition at_add_item : model :=
  mkModel one_list.1 one_list.2 0 1
          (mkTextInput "" true focusedStyle focusedStyle) ti_New 1.

(** * Lemmas on slices *)

Lemma len_nonneg {A : Type} (l : list A) : 0 <= len l.
Proof. unfold len. lia. Qed.

Lemma len_app {A : Type} (l k : list A) : len (l ++ k) = len l + len k.
Proof. unfold len. rewrite length_app. lia. Qed.

Lemma len_nil {A : Type} : len (@nil A) = 0.
Proof. reflexivity. Qed.

Lemma len_cons {A : Type} (x : A) (l : list A) : len (x :: l) = len l + 1.
Proof. unfold len. simpl length. lia. Qed.

Lemma len_snoc {A : Type} (l : list A) (x : A) : len (l ++ [x]) = len l + 1.
Proof. unfold len. rewrite length_app. simpl length. lia. Qed.

Lemma len_insert {A : Type} (l : list A) (i : nat) (x : A) :
  len (<[i := x]> l) = len l.
Proof. unfold len. by rewrite length_insert. Qed.

Lemma index_Some {A : Type} (l : list A) (i : Z) (x : A) :
  index l i = Some x <-> 0 <= i /\ l !! Z.to_nat i = Some x.
Proof.
  unfold index. destruct (Z.leb_spec 0 i); split.
  - intros E. split; [lia | exact E].
  - intros [_ E]. exact E.
  - discriminate.
  - intros [Hi _]. lia.
Qed.

Lemma index_in_range {A : Type} (l : list A) (i : Z) :
  0 <= i < len l -> exists x, index l i = Some x.
Proof.
  intros [Hlo Hhi]. unfold len in Hhi.
  destruct (lookup_lt_is_Some_2 l (Z.to_nat i)) as [x Hx]; [lia |].
  exists x. apply index_Some. split; [lia | exact Hx].
Qed.

Lemma index_range {A : Type} (l : list A) (i : Z) (x : A) :
  index l i = Some x -> 0 <= i < len l.
Proof.
  intros E. apply index_Some in E as [Hlo Hx].
  apply lookup_lt_Some in Hx. unfold len. lia.
Qed.

Lemma index_app_last {A : Type} (l : list A) (x : A) :
  index (l ++ [x]) (len l) = Some x.
Proof.
  apply index_Some. split; [apply len_nonneg |].
  unfold len. rewrite Nat2Z.id. rewrite lookup_app_r by lia.
  by rewrite Nat.sub_diag.
Qed.

(** [skip_index] drops exactly the element at the skipped position. *)
Lemma skip_index_delete {A : Type} (l : list A) (skip pos : Z) :
  pos <= skip ->
  skip_index skip pos l = delete (Z.to_nat (skip - pos)) l.
Proof.
  revert pos. induction l as [| x r IH]; intros pos Hle; [reflexivity |].
  simpl skip_index. destruct (Z.eqb_spec pos skip) as [-> | Hne].
  - rewrite Z.sub_diag. simpl. clear IH.
    assert (Hout : forall (k : list A) p, skip < p -> skip_index skip p k = k).
    { induction k as [| y k IHk]; intros p Hp; [reflexivity |].
      simpl. destruct (Z.eqb_spec p skip); [lia |].
      f_equal. apply IHk. lia. }
    apply Hout. lia.
  - rewrite IH by lia.
    replace (Z.to_nat (skip - pos)) with (S (Z.to_nat (skip - (pos + 1)))) by lia.
    reflexivity.
Qed.

Lemma skip_index_len {A : Type} (l : list A) (skip : Z) :
  0 <= skip < len l -> len (skip_index skip 0 l) = len l - 1.
Proof.
  intros [Hlo Hhi]. rewrite skip_index_delete by lia.
  unfold len in *. rewrite length_delete.
  - lia.
  - apply lookup_lt_is_Some_2. lia.
Qed.

(** * The invariant is kept by every step *)

Lemma selectedItems_ext (m m' : model) :
  keys m' = keys m -> lists m' = lists m -> selectedList m' = selectedList m ->
  selectedItems m' = selectedItems m.
Proof. unfold selectedItems. by intros -> -> ->. Qed.

Lemma selectedItems_no_keys (m : model) :
  len (keys m) = 0 -> selectedItems m = Some [].
Proof. unfold selectedItems. intros ->. reflexivity. Qed.

Lemma selectedItems_key (m : model) (key : string) :
  index (keys m) (selectedList m) = Some key ->
  selectedItems m = Some (mapget (lists m) key).
Proof.
  intros E. unfold selectedItems. rewrite E.
  apply index_range in E.
  destruct (Z.ltb_spec 0 (len (keys m))); [reflexivity | lia].
Qed.

Lemma selectedItems_total (m : model) :
  (0 < len (keys m) -> 0 <= selectedList m < len (keys m)) ->
  exists items, selectedItems m = Some items.
Proof.
  intros Hsel. unfold selectedItems.
  destruct (Z.ltb_spec 0 (len (keys m))) as [Hk | Hk]; [| by eexists].
  destruct (index_in_range (keys m) (selectedList m) (Hsel Hk)) as [key ->].
  by eexists.
Qed.

Lemma selectedItems_inv (m : model) (items : list listItem) :
  selectedItems m = Some items ->
  (len (keys m) = 0 /\ items = []) \/
  (exists key, 0 < len (keys m) /\ index (keys m) (selectedList m) = Some key /\
               items = mapget (lists m) key).
Proof.
  unfold selectedItems.
  destruct (Z.ltb_spec 0 (len (keys m))) as [Hk | Hk].
  - destruct (index (keys m) (selectedList m)) as [key |] eqn:E; [| discriminate].
    simpl. intros [= <-]. right. by exists key.
  - intros [= <-]. left. pose proof (len_nonneg (keys m)). split; [lia | done].
Qed.

Lemma mapget_insert (l : gmap string (list listItem)) (k : string) (v : list listItem) :
  mapget (<[k := v]> l) k = v.
Proof. unfold mapget. by rewrite lookup_insert_eq. Qed.

Lemma inputsCount_cases (m : model) :
  (0 < len (keys m) /\ inputsCount m = 2) \/ (len (keys m) = 0 /\ inputsCount m = 1).
Proof.
  unfold inputsCount. pose proof (len_nonneg (keys m)).
  destruct (Z.ltb_spec 0 (len (keys m))); [left | right]; lia.
Qed.

(** Reduction of the record projections over the field setters. *)
Ltac simp_model :=
  cbn [lists keys selectedList cursor textInput newListTextInput listStartOffset
       set_cursor set_selectedList set_lists set_keys set_listStartOffset
       set_textInput set_newListTextInput setCursor getItemCursor
       blurTextInput blurListTextInput focusTextInput focusListTextInput
       ti_Focus ti_Blur ti_SetStyle ti_SetValue ti_New
       focus Value PromptStyle TextStyle next cmd saved] in *.

(** Case analysis on the innermost condition of the goal; [lia] reads the
    boolean comparisons kept as equations. *)
Ltac case_if :=
  match goal with
  | |- context [if ?b then _ else _] =>
      lazymatch b with
      | context [if _ then _ else _] => fail
      | _ => destruct b eqn:?
      end
  end; simp_model.

(** Arithmetic on row numbers, by cases on whether a key exists. *)
Ltac rows :=
  unfold inputsCount in *; simp_model;
  repeat match goal with
  | H : context [if ?b then _ else _] |- _ => destruct b eqn:?
  | |- context [if ?b then _ else _] => destruct b eqn:?
  end;
  simp_model; try lia.


Lemma initialModel_Inv loaded m : initialModel loaded = Some m -> Inv m.
Proof.
  destruct loaded as [l k]. unfold initialModel.
  pose proof (len_nonneg k) as Hlen.
  destruct (Z.ltb_spec 0 (len k)) as [Hk | Hk].
  - destruct (index k 0) as [key |] eqn:E; [| discriminate].
    simpl. intros [= <-]. split; simp_model.
    + reflexivity.
    + lia.
    + exists (mapget l key). split.
      { apply selectedItems_key. exact E. }
      unfold inputsCount. simp_model.
      pose proof (len_nonneg (mapget l key)).
      destruct (Z.ltb_spec 0 (len k)); [| lia].
      split; [lia |]. split; [| discriminate].
      split; [intros _; lia | reflexivity].
  - simpl. intros [= <-].
    split; simp_model.
    + reflexivity.
    + lia.
    + exists []. split.
      { apply selectedItems_no_keys. simp_model. lia. }
      unfold inputsCount. simp_model. pose proof (@len_nil listItem).
      destruct (Z.ltb_spec 0 (len k)); [lia |].
      split; [lia |]. split; [| intros _; lia].
      split; [discriminate | lia].
Qed.

Section Steps.
Context `{L : TextLib}.

Lemma ti_Update_focus (msg : Msg) (t : textinput) :
  focus (ti_Update msg t) = focus t.
Proof. unfold ti_Update. destruct (focus t) eqn:E; simpl; congruence. Qed.

Lemma ti_Update_blurred (msg : Msg) (t : textinput) :
  focus t = false -> ti_Update msg t = t.
Proof. unfold ti_Update. by intros ->. Qed.

Lemma Inv_build (m : model) (items : list listItem) :
  listStartOffset m = len (keys m) ->
  (0 < len (keys m) -> 0 <= selectedList m < len (keys m)) ->
  selectedItems m = Some items ->
  0 <= cursor m < len (keys m) + len items + inputsCount m ->
  (focus (textInput m) = true <->
     0 < len (keys m) /\ cursor m = len (keys m) + len items) ->
  (focus (newListTextInput m) = true ->
     cursor m = len (keys m) + len items + inputsCount m - 1) ->
  Inv m.
Proof. intros. split; [done | done |]. exists items. auto. Qed.

(** Changing only the text of the fields keeps the invariant. *)
Lemma Inv_same_rows (m m' : model) :
  Inv m ->
  keys m' = keys m -> lists m' = lists m -> selectedList m' = selectedList m ->
  cursor m' = cursor m -> listStartOffset m' = listStartOffset m ->
  focus (textInput m') = focus (textInput m) ->
  focus (newListTextInput m') = focus (newListTextInput m) ->
  Inv m'.
Proof.
  intros [Ho Hs (items & Hi & Hc & F1 & F2)] Ek El Es Ec Eo Ef1 Ef2.
  apply (Inv_build m' items); unfold inputsCount in *;
    rewrite ?Ek, ?Es, ?Ec, ?Eo, ?Ef1, ?Ef2; try done.
  rewrite <- Hi. by apply selectedItems_ext.
Qed.

Lemma updateInputs_Inv (msg : Msg) (m : model) :
  Inv m -> Inv (next (updateInputs msg m)).
Proof.
  intros HI. apply (Inv_same_rows m); try done; unfold updateInputs; simp_model;
    apply ti_Update_focus.
Qed.

(** On a row that holds no focused field, the tail of [Update] is the
    identity. *)
Lemma updateInputs_blurred (msg : Msg) (m : model) :
  focus (textInput m) = false -> focus (newListTextInput m) = false ->
  updateInputs msg m = mkOutcome m cmdOther None.
Proof.
  intros E1 E2. unfold updateInputs.
  rewrite (ti_Update_blurred _ _ E1).
  simp_model. rewrite (ti_Update_blurred _ _ E2).
  destruct m; reflexivity.
Qed.

(** Moving the cursor. *)
Lemma moveCursor_Inv (s : string) (m : model) (items : list listItem) :
  Inv m -> selectedItems m = Some items ->
  let total := len (keys m) + len items + inputsCount m in
  let newItemIdx := if inputsCount m =? 2 then total - 2 else -1 in
  Inv (next (moveCursor s total (total - 1) newItemIdx m)).
Proof.
  intros [Ho Hs (items' & Hi & Hc & F1 & F2)] Hi'.
  rewrite Hi in Hi'. injection Hi' as ->.
  pose proof (len_nonneg items) as Hn.
  intros total newItemIdx.
  assert (Hsel : forall m', keys m' = keys m -> lists m' = lists m ->
            selectedList m' = selectedList m -> selectedItems m' = Some items).
  { intros m' E1 E2 E3. rewrite <- Hi. by apply selectedItems_ext. }
  subst total newItemIdx.
  destruct (inputsCount_cases m) as [[Hk Hin] | [Hk Hin]];
    unfold moveCursor; simp_model; repeat case_if;
    (apply (Inv_build _ items);
     [ simp_model; done
     | simp_model; done
     | apply Hsel; reflexivity
     | unfold inputsCount in *; simp_model; lia
     | simp_model; split; [ try discriminate; intros _; lia
                          | intros [? ?]; try reflexivity; lia ]
     | unfold inputsCount in *; simp_model; try discriminate; intros _; lia ]).
Qed.

(** Deleting the list under the cursor. *)
Lemma deleteList_spec (m : model) :
  Inv m -> cursor m < len (keys m) ->
  exists key o,
    index (keys m) (cursor m) = Some key /\
    deleteList m = Some o /\
    cmd o = cmdOther /\ saved o = None /\
    keys (next o) = delete (Z.to_nat (cursor m)) (keys m) /\
    len (keys (next o)) = len (keys m) - 1 /\
    lists (next o) = delete key (lists m) /\
    listStartOffset (next o) = len (keys (next o)) /\
    (len (keys (next o)) = 0 ->
       selectedList (next o) = 0 /\ cursor (next o) = 0 /\
       focus (newListTextInput (next o)) = true /\
       focus (textInput (next o)) = false) /\
    (0 < len (keys (next o)) ->
       selectedList (next o) =
         (if cursor m =? selectedList m then Z.max 0 (selectedList m - 1)
          else if cursor m <? selectedList m then selectedList m - 1
          else selectedList m) /\
       cursor (next o) = selectedList (next o) /\
       0 <= selectedList (next o) < len (keys (next o)) /\
       focus (textInput (next o)) = false /\
       focus (newListTextInput (next o)) = false).
Proof.
  intros [Ho Hs (items & Hi & Hc & F1 & F2)] Hrow.
  destruct (index_in_range (keys m) (cursor m)) as [key Hkey]; [lia |].
  assert (Hlen : len (skip_index (cursor m) 0 (keys m)) = len (keys m) - 1)
    by (apply skip_index_len; lia).
  assert (Hdel : skip_index (cursor m) 0 (keys m)
                 = delete (Z.to_nat (cursor m)) (keys m)).
  { rewrite skip_index_delete by lia. by rewrite Z.sub_0_r. }
  exists key. unfold deleteList. rewrite Hkey. simpl mbind. simp_model.
  destruct (len (skip_index (cursor m) 0 (keys m)) =? 0) eqn:E0.
  - eexists. split; [done |]. split; [reflexivity |]. simp_model.
    split_and!; try done; try lia.
  - eexists. split; [done |]. split; [reflexivity |]. simp_model.
    repeat case_if; split_and!; try done; try lia;
      intros _; split_and!; try done; lia.
Qed.

Lemma deleteList_Inv (m : model) (o : outcome) :
  Inv m -> cursor m < len (keys m) -> deleteList m = Some o -> Inv (next o).
Proof.
  intros HI Hrow Ho.
  destruct (deleteList_spec m HI Hrow)
    as (key & o' & _ & Ho' & _ & _ & _ & Hlen & _ & Hoff & Hzero & Hpos).
  rewrite Ho in Ho'. injection Ho' as <-.
  pose proof (len_nonneg (keys (next o))) as Hk.
  destruct (Z.eq_dec (len (keys (next o))) 0) as [Hz | Hnz].
  - destruct (Hzero Hz) as (Hsel & Hcur & Hf2 & Hf1).
    pose proof (@len_nil listItem) as Hnil.
    apply (Inv_build _ []); unfold inputsCount; rewrite ?Hz, ?Hcur, ?Hf1; simpl.
    + lia.
    + lia.
    + by apply selectedItems_no_keys.
    + lia.
    + split; [discriminate | lia].
    + intros _. lia.
  - destruct Hpos as (_ & Hcur & Hsel & Hf1 & Hf2); [lia |].
    destruct (selectedItems_total (next o)) as [items' Hi']; [done |].
    pose proof (len_nonneg items').
    apply (Inv_build _ items'); try done.
    + destruct (inputsCount_cases (next o)) as [[? ->] | [? ->]]; lia.
    + rewrite Hf1. split; [discriminate | lia].
    + rewrite Hf2. discriminate.
Qed.

(** The row numbers [Update] computes, as functions of the model. *)
Lemma Inv_blurred_before (m : model) (items : list listItem) :
  Inv m -> selectedItems m = Some items ->
  cursor m < len (keys m) + len items ->
  focus (textInput m) = false /\ focus (newListTextInput m) = false.
Proof.
  intros [Ho Hs (items' & Hi & Hc & F1 & F2)] Hi' Hrow.
  rewrite Hi in Hi'. injection Hi' as ->.
  split.
  - destruct (focus (textInput m)); [| done].
    destruct F1 as [F1 _]. destruct F1; [done | lia].
  - destruct (focus (newListTextInput m)); [| done].
    specialize (F2 eq_refl).
    destruct (inputsCount_cases m) as [[? E] | [? E]]; rewrite E in F2; lia.
Qed.

(** Deleting the item under the cursor. *)
Lemma deleteItem_hit (msg : Msg) (m : model) (items : list listItem) :
  Inv m -> selectedItems m = Some items ->
  len (keys m) <= cursor m < len (keys m) + len items ->
  exists key,
    index (keys m) (selectedList m) = Some key /\
    items = mapget (lists m) key /\
    deleteItem msg items (len items) (getItemCursor m) m =
      Some (mkOutcome
              (set_lists
                 (<[key := delete (Z.to_nat (cursor m - len (keys m))) items]> (lists m))
                 (set_cursor (len items - 1 - 1 + len (keys m)) m))
              cmdOther None).
Proof.
  intros HI Hi Hrow.
  destruct (Inv_blurred_before m items HI Hi) as [Hf1 Hf2]; [lia |].
  destruct HI as [Ho Hs _].
  destruct (selectedItems_inv m items Hi) as [[Hk ->] | (key & Hk & Hkey & ->)].
  { pose proof (@len_nil listItem). lia. }
  exists key. split; [done |]. split; [done |].
  unfold deleteItem, getItemCursor. rewrite Ho.
  case_if; [lia |].
  rewrite Hkey. simpl mbind.
  rewrite skip_index_len by lia.
  rewrite skip_index_delete by lia. rewrite Z.sub_0_r.
  rewrite updateInputs_blurred by done.
  unfold setCursor. rewrite Ho. reflexivity.
Qed.

Lemma deleteItem_miss (msg : Msg) (m : model) (items : list listItem) :
  listStartOffset m = len (keys m) ->
  len (keys m) + len items <= cursor m ->
  deleteItem msg items (len items) (getItemCursor m) m = Some (updateInputs msg m).
Proof.
  intros Ho Hrow. unfold deleteItem, getItemCursor. rewrite Ho.
  case_if; [done | lia].
Qed.

Lemma deleteItem_Inv (msg : Msg) (m : model) (items : list listItem) (o : outcome) :
  Inv m -> selectedItems m = Some items -> len (keys m) <= cursor m ->
  deleteItem msg items (len items) (getItemCursor m) m = Some o ->
  Inv (next o).
Proof.
  intros HI Hi Hrow Ho.
  destruct (Z.lt_ge_cases (cursor m) (len (keys m) + len items)) as [Hhit | Hmiss].
  - destruct (Inv_blurred_before m items HI Hi Hhit) as [Hf1 Hf2].
    destruct (deleteItem_hit msg m items HI Hi (conj Hrow Hhit))
      as (key & Hkey & -> & E).
    rewrite E in Ho. injection Ho as <-. simp_model.
    destruct HI as [Hoff Hs _].
    set (newItems := delete _ _).
    assert (Hlen : len newItems = len (mapget (lists m) key) - 1).
    { unfold newItems, len in *. rewrite length_delete.
      - lia.
      - apply lookup_lt_is_Some_2. lia. }
    pose proof (index_range _ _ _ Hkey) as Hk.
    apply (Inv_build _ newItems); simp_model; try done.
    + rewrite (selectedItems_key _ key) by done. simp_model.
      by rewrite mapget_insert.
    + unfold inputsCount. simp_model. case_if; lia.
    + rewrite Hf1. split; [discriminate | lia].
    + rewrite Hf2. discriminate.
  - destruct HI as [Hoff Hs Hr].
    rewrite deleteItem_miss in Ho by done. injection Ho as <-.
    apply updateInputs_Inv. by split.
Qed.

(** Toggling the item under the cursor. *)
Lemma toggleItem_hit (m : model) (items : list listItem) (ic : Z) :
  selectedItems m = Some items -> 0 <= ic < len items ->
  exists key it,
    index (keys m) (selectedList m) = Some key /\
    items = mapget (lists m) key /\
    index items ic = Some it /\
    toggleItem items ic m =
      Some (set_lists
              (<[key := <[Z.to_nat ic := mkItem (Item it) (negb (Completed it))]> items]>
                 (lists m)) m).
Proof.
  intros Hi Hrow.
  destruct (selectedItems_inv m items Hi) as [[Hk ->] | (key & Hk & Hkey & ->)].
  { pose proof (@len_nil listItem). lia. }
  destruct (index_in_range _ _ Hrow) as [it Hit].
  exists key, it. split; [done |]. split; [done |]. split; [done |].
  unfold toggleItem. rewrite Hit, Hkey. simpl mbind. rewrite Hit. reflexivity.
Qed.

Lemma toggleItem_Inv (m m' : model) (items : list listItem) :
  Inv m -> selectedItems m = Some items ->
  0 <= getItemCursor m < len items ->
  toggleItem items (getItemCursor m) m = Some m' ->
  Inv m'.
Proof.
  intros HI Hi Hrow Ht.
  destruct (toggleItem_hit m items _ Hi Hrow) as (key & it & Hkey & -> & _ & E).
  rewrite E in Ht. injection Ht as <-.
  destruct HI as [Ho Hs (items' & Hi' & Hc & F1 & F2)].
  rewrite Hi in Hi'. injection Hi' as <-.
  set (items' := <[_ := _]> (mapget (lists m) key)).
  assert (Hlen : len items' = len (mapget (lists m) key)) by apply len_insert.
  apply (Inv_build _ items'); simp_model; try done.
  - rewrite (selectedItems_key _ key) by done. simp_model.
    by rewrite mapget_insert.
  - unfold inputsCount in *. simp_model. lia.
  - rewrite F1. lia.
  - unfold inputsCount in *. simp_model. intros F. specialize (F2 F). lia.
Qed.

(** Confirming on the add-item row with text that is not blank. *)
Lemma enterKey_addItem (msg : Msg) (m : model) (items : list listItem) (nl ni : Z) :
  Inv m -> selectedItems m = Some items ->
  0 < len (keys m) -> cursor m = len (keys m) + len items ->
  ni = len (keys m) + len items ->
  TrimSpace (Value (textInput m)) <> "" ->
  exists key,
    index (keys m) (selectedList m) = Some key /\
    items = mapget (lists m) key /\
    enterKey msg items (len (keys m)) (len items) nl ni (getItemCursor m) m =
      Some (mkOutcome
              (mkModel
                 (<[key := items ++ [mkItem (TrimSpace (Value (textInput m))) false]]> (lists m))
                 (keys m) (selectedList m) (cursor m + 1)
                 (ti_SetValue "" (textInput m)) (newListTextInput m)
                 (listStartOffset m))
              cmdOther None).
Proof.
  intros [Ho Hs _] Hi Hk Hrow -> Htext.
  destruct (selectedItems_inv m items Hi) as [[Hk0 _] | (key & _ & Hkey & ->)]; [lia |].
  exists key. split; [done |]. split; [done |].
  pose proof (len_nonneg (mapget (lists m) key)).
  apply String.eqb_neq in Htext.
  unfold enterKey, getItemCursor. rewrite Htext, Hkey.
  repeat case_if; try lia. reflexivity.
Qed.

(** Confirming on the add-list row with text that is not blank. *)
Lemma enterKey_addList (msg : Msg) (m : model) (items : list listItem) (nl ni : Z) :
  Inv m -> selectedItems m = Some items ->
  cursor m = len (keys m) + len items + inputsCount m - 1 ->
  nl = len (keys m) + len items + inputsCount m - 1 ->
  ni = (if inputsCount m =? 2 then len (keys m) + len items + inputsCount m - 2 else -1) ->
  TrimSpace (Value (newListTextInput m)) <> "" ->
  let text := TrimSpace (Value (newListTextInput m)) in
  enterKey msg items (len (keys m)) (len items) nl ni (getItemCursor m) m =
    Some (mkOutcome
            (mkModel
               (<[text := []]> (lists m))
               (keys m ++ [text])
               (len (keys m ++ [text]) - 1)
               (len (keys m ++ [text]))
               (ti_SetStyle focusedStyle (ti_Focus (textInput m)))
               (ti_SetStyle noStyle (ti_Blur (ti_SetValue "" (newListTextInput m))))
               (len (keys m ++ [text])))
            cmdOther None).
Proof.
  intros [Ho Hs _] Hi Hrow -> -> Htext text.
  pose proof (len_nonneg items). pose proof (len_nonneg (keys m)).
  apply String.eqb_neq in Htext.
  subst text. unfold enterKey, getItemCursor. rewrite Htext.
  destruct (inputsCount_cases m) as [[Hk E] | [Hk E]]; rewrite E in *;
    repeat case_if; try lia; reflexivity.
Qed.

(** Confirming blank text on an input row only reaches the text inputs. *)
Lemma enterKey_blank (msg : Msg) (m : model) (items : list listItem) (nl ni : Z) :
  Inv m -> selectedItems m = Some items ->
  nl = len (keys m) + len items + inputsCount m - 1 ->
  ni = (if inputsCount m =? 2 then len (keys m) + len items + inputsCount m - 2 else -1) ->
  (0 < len (keys m) /\ cursor m = len (keys m) + len items /\
   TrimSpace (Value (textInput m)) = "") \/
  (cursor m = len (keys m) + len items + inputsCount m - 1 /\
   TrimSpace (Value (newListTextInput m)) = "") ->
  enterKey msg items (len (keys m)) (len items) nl ni (getItemCursor m) m =
    Some (updateInputs msg m).
Proof.
  intros [Ho Hs _] Hi -> -> Hcase.
  pose proof (len_nonneg items). pose proof (len_nonneg (keys m)).
  unfold enterKey, getItemCursor.
  destruct (inputsCount_cases m) as [[Hk E] | [Hk E]]; rewrite E in *;
    destruct Hcase as [(Hk' & Hrow & Ht) | (Hrow & Ht)]; rewrite ?Ht;
    repeat case_if; try lia; try discriminate; reflexivity.
Qed.

(** The model a new list leaves behind satisfies the invariant. *)
Lemma addList_Inv (l : gmap string (list listItem)) (k : list string)
    (text : string) (t1 t2 : textinput) :
  focus t1 = true -> focus t2 = false ->
  Inv (mkModel (<[text := []]> l) (k ++ [text]) (len (k ++ [text]) - 1)
               (len (k ++ [text])) t1 t2 (len (k ++ [text]))).
Proof.
  intros Hf1 Hf2. pose proof (len_nonneg k) as Hk.
  pose proof (@len_nil listItem) as Hnil.
  apply (Inv_build _ []); simp_model; rewrite ?len_snoc.
  - done.
  - lia.
  - unfold selectedItems. simp_model. rewrite len_snoc.
    replace (len k + 1 - 1) with (len k) by lia.
    rewrite index_app_last. simpl mbind. rewrite mapget_insert.
    case_if; [done | lia].
  - unfold inputsCount. simp_model. rewrite len_snoc. case_if; lia.
  - split; [intros _; lia | done].
  - rewrite Hf2. discriminate.
Qed.

Lemma enterKey_Inv (msg : Msg) (m : model) (items : list listItem) :
  Inv m -> selectedItems m = Some items ->
  let total := len (keys m) + len items + inputsCount m in
  let ni := if inputsCount m =? 2 then total - 2 else -1 in
  exists o,
    enterKey msg items (len (keys m)) (len items) (total - 1) ni (getItemCursor m) m
      = Some o /\ Inv (next o).
Proof.
  intros HI Hi total ni. subst total ni.
  pose proof HI as [Ho Hs (items' & Hi' & Hc & F1 & F2)].
  rewrite Hi in Hi'. injection Hi' as <-.
  pose proof (len_nonneg items) as Hn. pose proof (len_nonneg (keys m)) as Hkn.
  destruct (Z.lt_ge_cases (cursor m) (len (keys m))) as [Hkey | Hnokey].
  { (* a key row: select that list *)
    exists (updateInputs msg (set_selectedList (cursor m) m)). split.
    - unfold enterKey. case_if; [done | lia].
    - destruct (Inv_blurred_before m items HI Hi) as [Hf1 Hf2]; [lia |].
      apply updateInputs_Inv.
      destruct (selectedItems_total (set_selectedList (cursor m) m)) as [its Hits].
      { simp_model. lia. }
      pose proof (len_nonneg its).
      apply (Inv_build _ its); simp_model; try done.
      + lia.
      + rows.
      + rewrite Hf1. split; [discriminate | lia].
      + rewrite Hf2. discriminate. }
  destruct (Z.lt_ge_cases (cursor m) (len (keys m) + len items)) as [Hitem | Hnoitem].
  { (* an item row: toggle *)
    assert (Hic : 0 <= getItemCursor m < len items).
    { unfold getItemCursor. rewrite Ho. lia. }
    destruct (toggleItem_hit m items _ Hi Hic) as (key & it & _ & _ & _ & E).
    eexists. split.
    - unfold enterKey. rewrite E. simpl mbind. repeat case_if; try lia. reflexivity.
    - apply updateInputs_Inv.
      eapply toggleItem_Inv; [exact HI | exact Hi | exact Hic | exact E]. }
  destruct (inputsCount_cases m) as [[Hk E] | [Hk E]].
  - destruct (Z.eq_dec (cursor m) (len (keys m) + len items)) as [Hrow | Hrow].
    + (* the add-item row *)
      destruct (decide (TrimSpace (Value (textInput m)) = "")) as [Hb | Hb].
      * eexists. split; [| apply updateInputs_Inv, HI].
        apply enterKey_blank; try done. left. done.
      * destruct (enterKey_addItem msg m items
                    (len (keys m) + len items + inputsCount m - 1)
                    (if inputsCount m =? 2
                     then len (keys m) + len items + inputsCount m - 2 else -1)
                    HI Hi Hk Hrow) as (key & Hkey & Hits & Eo); [| done |].
        { rewrite E. simpl. lia. }
        eexists. split; [exact Eo |]. simp_model.
        apply (Inv_build _ (items ++ [mkItem (TrimSpace (Value (textInput m))) false]));
          simp_model; try done.
        -- rewrite (selectedItems_key _ key) by done. simp_model.
           by rewrite mapget_insert.
        -- rewrite len_snoc. rows.
        -- rewrite len_snoc, F1. lia.
        -- intros F. specialize (F2 F). lia.
    + (* the add-list row *)
      assert (Hrow' : cursor m = len (keys m) + len items + inputsCount m - 1) by lia.
      destruct (decide (TrimSpace (Value (newListTextInput m)) = "")) as [Hb | Hb].
      * eexists. split; [| apply updateInputs_Inv, HI].
        apply enterKey_blank; try done. right. done.
      * eexists. split; [by apply enterKey_addList |]. simp_model.
        by apply addList_Inv.
  - (* no key: the add-list row is the only row *)
    assert (Hrow' : cursor m = len (keys m) + len items + inputsCount m - 1) by lia.
    destruct (decide (TrimSpace (Value (newListTextInput m)) = "")) as [Hb | Hb].
    + eexists. split; [| apply updateInputs_Inv, HI].
      apply enterKey_blank; try done. right. done.
    + eexists. split; [by apply enterKey_addList |]. simp_model.
      by apply addList_Inv.
Qed.

(** [Update] never panics on a model that satisfies the invariant, and
    the model it returns satisfies it again. *)
Lemma Update_Inv (msg : Msg) (m : model) :
  Inv m -> exists o, Update msg m = Some o /\ Inv (next o).
Proof.
  intros HI.
  pose proof HI as [Ho Hs (items & Hi & Hc & F1 & F2)].
  unfold Update. rewrite Hi. simpl mbind.
  destruct msg as [s |]; [| eexists; split; [done | by apply updateInputs_Inv]].
  destruct (String.eqb s "ctrl+c" || String.eqb s "q").
  { destruct (String.eqb s "q" && (getItemCursor m =? len items) && (0 <? len (keys m))).
    - eexists; split; [done | by apply updateInputs_Inv].
    - eexists; split; [done | done]. }
  destruct (String.eqb s "d").
  { destruct (Z.ltb_spec (cursor m) (len (keys m))) as [Hrow | Hrow].
    - destruct (deleteList_spec m HI Hrow) as (key & o & _ & E & _).
      exists o. split; [done |]. by apply (deleteList_Inv m).
    - destruct (Z.lt_ge_cases (cursor m) (len (keys m) + len items)) as [Hhit | Hmiss].
      + destruct (deleteItem_hit (KeyMsg s) m items HI Hi (conj Hrow Hhit))
          as (key & _ & _ & E).
        eexists. split; [exact E |].
        by apply (deleteItem_Inv (KeyMsg s) m items).
      + eexists. split; [by apply deleteItem_miss |]. by apply updateInputs_Inv. }
  destruct (String.eqb s "tab" || String.eqb s "shift+tab"
            || String.eqb s "up" || String.eqb s "down").
  { eexists. split; [done |]. by apply (moveCursor_Inv s m items). }
  destruct (String.eqb s "enter").
  { by apply (enterKey_Inv (KeyMsg s) m items). }
  destruct (String.eqb s " "); [| eexists; split; [done | by apply updateInputs_Inv]].
  destruct ((0 <=? getItemCursor m) && (getItemCursor m <? len items)) eqn:Eic.
  - assert (Hic : 0 <= getItemCursor m < len items) by lia.
    destruct (toggleItem_hit m items _ Hi Hic) as (key & it & _ & _ & _ & E).
    rewrite E. simpl mbind. eexists. split; [done |].
    apply updateInputs_Inv.
    eapply toggleItem_Inv; [exact HI | exact Hi | exact Hic | exact E].
  - eexists; split; [done | by apply updateInputs_Inv].
Qed.

Lemma reachable_Inv (m : model) : reachable m -> Inv m.
Proof.
  induction 1 as [loaded m Hinit | m msg o _ IH Hstep].
  - eapply initialModel_Inv; eassumption.
  - destruct (Update_Inv msg m IH) as (o' & E & HI).
    rewrite Hstep in E. by injection E as <-.
Qed.



Lemma run_Some_reachable (msgs : list Msg) (m m' : model) (saves : list jsonData) :
  reachable m -> run msgs m = Some (m', saves) -> reachable m'.
Proof.
  revert m saves. induction msgs as [| msg rest IH]; intros m saves Hm.
  - simpl. by intros [= <- _].
  - simpl run. destruct (Update msg m) as [o |] eqn:E; [| discriminate].
    simpl mbind.
    assert (Ho : reachable (next o)) by (eapply reach_step; eauto).
    destruct (cmd o).
    + by intros [= <- _].
    + destruct (run rest (next o)) as [[m1 s1] |] eqn:E1; [| discriminate].
      simpl. intros [= <- _]. by apply (IH (next o) s1).
Qed.

Lemma start_Some_reachable (loaded : gmap string (list listItem) * list string)
    (msgs : list Msg) (m : model) (saves : list jsonData) :
  start loaded msgs = Some (m, saves) -> reachable m.
Proof.
  unfold start. destruct (initialModel loaded) as [m0 |] eqn:E0; [| discriminate].
  simpl mbind. apply run_Some_reachable. by apply (reach_init loaded).
Qed.

(** What [Update] does with each key, once the rows are known. *)
Lemma Update_d (m : model) (items : list listItem) :
  selectedItems m = Some items ->
  Update (KeyMsg "d") m =
    if cursor m <? len (keys m) then deleteList m
    else deleteItem (KeyMsg "d") items (len items) (getItemCursor m) m.
Proof. intros Hi. unfold Update. rewrite Hi. reflexivity. Qed.

Lemma Update_enter (m : model) (items : list listItem) :
  selectedItems m = Some items ->
  Update (KeyMsg "enter") m =
    enterKey (KeyMsg "enter") items (len (keys m)) (len items)
      (len (keys m) + len items + inputsCount m - 1)
      (if inputsCount m =? 2 then len (keys m) + len items + inputsCount m - 2 else -1)
      (getItemCursor m) m.
Proof. intros Hi. unfold Update. rewrite Hi. reflexivity. Qed.

Lemma Update_q (m : model) (items : list listItem) :
  selectedItems m = Some items ->
  Update (KeyMsg "q") m =
    if (getItemCursor m =? len items) && (0 <? len (keys m))
    then Some (updateInputs (KeyMsg "q") m)
    else Some (mkOutcome m cmdQuit (Some (snapshot m))).
Proof. intros Hi. unfold Update. rewrite Hi. reflexivity. Qed.

Lemma Update_ctrl_c (m : model) (items : list listItem) :
  selectedItems m = Some items ->
  Update (KeyMsg "ctrl+c") m = Some (mkOutcome m cmdQuit (Some (snapshot m))).
Proof. intros Hi. unfold Update. rewrite Hi. reflexivity. Qed.

Lemma total_rows (m : model) (items : list listItem) :
  selectedItems m = Some items ->
  total m = Some (len (keys m) + len items + inputsCount m).
Proof. intros Hi. unfold total. rewrite Hi. reflexivity. Qed.

End Steps.

(** * The claims *)



(** C2, at the failing input.  With no list the only row is the add-list
    row, which holds the focus at start.  After "down" the cursor has
    wrapped back to that row (row 0 of 1), but the add-list field is
    blurred: [Update] sets the focus from the cursor before it wraps.  The
    same happens with lists present when "up" is pressed on row 0: from the
    start on one list, two "up" put the cursor on the add-list row (row 2
    of 3) and leave its field blurred. *)
Theorem move_sets_focus_before_wrap `{L : TextLib} :
  (exists m0 o,
     initialModel (∅, []) = Some m0 /\
     cursor m0 = 0 /\ focus (newListTextInput m0) = true /\
     Update (KeyMsg "down") m0 = Some o /\
     total (next o) = Some 1 /\
     cursor (next o) = 0 /\
     focus (newListTextInput (next o)) = false) /\
  (exists m,
     start one_list [KeyMsg "up"; KeyMsg "up"] = Some (m, []) /\
     total m = Some 3 /\
     cursor m = 2 /\
     focus (newListTextInput m) = false).
Proof.
  split.
  - eexists _, _. split; [reflexivity |]. split; [reflexivity |].
    split; [reflexivity |]. split; [reflexivity |]. done.
  - eexists. split; [reflexivity |]. done.
Qed.

(** C3, at the failing input.  Starting without a file, the user adds a
    list "A", moves to the add-list row, adds a second list "A", moves up
    to its key row and deletes it.  The key sequence still holds "A", but
    the mapping has no entry for it: the deletion removed the slot the two
    keys shared. *)
Theorem duplicate_name_leaves_dangling_key :
  exists m,
    start (H := SimpleLib) (∅, [])
      [KeyMsg "A"; KeyMsg "enter"; KeyMsg "down";
       KeyMsg "A"; KeyMsg "enter"; KeyMsg "up"; KeyMsg "d"] = Some (m, []) /\
    keys m = ["A"] /\
    lists m !! "A" = None.
Proof. eexists. split; [vm_compute; reflexivity |]. split; reflexivity. Qed.

(** C4, counterexample.  After the list "G" was added the cursor is on the
    add-item row (row 1: neither a key row nor an item row) and the
    add-item field has the focus.  The delete key is then typed into that
    field, so the event does change the model. *)
Lemma delete_key_on_input_row_is_typed :
  exists m o,
    start (H := SimpleLib) (∅, []) [KeyMsg "G"; KeyMsg "enter"] = Some (m, []) /\
    len (keys m) = 1 /\ selectedItems m = Some [] /\ cursor m = 1 /\
    Update (H := SimpleLib) (KeyMsg "d") m = Some o /\
    Value (textInput m) = "" /\
    Value (textInput (next o)) = "d" /\
    next o <> m.
Proof.
  eexists _, _. split; [vm_compute; reflexivity |].
  split; [reflexivity |]. split; [reflexivity |]. split; [reflexivity |].
  split; [vm_compute; reflexivity |].
  split; [reflexivity |]. split; [reflexivity |].
  intros E. apply (f_equal (fun m => Value (textInput m))) in E.
  vm_compute in E. discriminate E.
Qed.

(** C4, amended.  In a reachable model, when the cursor addresses an item
    row the delete key removes exactly that item from the selected list and
    sets the cursor to (new item count - 1) + K, K the number of keys;
    nothing else changes.  When the cursor is past the item rows (on an
    input row) the delete key leaves keys, lists, selection, cursor, offset
    and focus as they are: the message only reaches the text inputs, where
    it can change the text of the focused field. *)
Theorem delete_item_spec `{L : TextLib} (m : model) (items : list listItem) :
  reachable m -> selectedItems m = Some items ->
  (len (keys m) <= cursor m < len (keys m) + len items ->
   exists key newItems,
     index (keys m) (selectedList m) = Some key /\
     newItems = delete (Z.to_nat (cursor m - len (keys m))) items /\
     len newItems = len items - 1 /\
     Update (KeyMsg "d") m =
       Some (mkOutcome
               (set_lists (<[key := newItems]> (lists m))
                  (set_cursor ((len newItems - 1) + len (keys m)) m))
               cmdOther None) /\
     selectedItems (set_lists (<[key := newItems]> (lists m)) m) = Some newItems) /\
  (len (keys m) + len items <= cursor m ->
   exists o,
     Update (KeyMsg "d") m = Some o /\
     o = updateInputs (KeyMsg "d") m /\
     keys (next o) = keys m /\ lists (next o) = lists m /\
     selectedList (next o) = selectedList m /\ cursor (next o) = cursor m /\
     listStartOffset (next o) = listStartOffset m /\
     focus (textInput (next o)) = focus (textInput m) /\
     focus (newListTextInput (next o)) = focus (newListTextInput m) /\
     cmd o = cmdOther /\ saved o = None).
Proof.
  intros Hm Hi. pose proof (reachable_Inv m Hm) as HI.
  pose proof HI as [Ho _ _]. pose proof (len_nonneg items) as Hn.
  rewrite (Update_d m items Hi). split.
  - intros Hrow.
    destruct (deleteItem_hit (KeyMsg "d") m items HI Hi Hrow) as (key & Hkey & Hits & E).
    exists key, (delete (Z.to_nat (cursor m - len (keys m))) items).
    assert (Hlen : len (delete (Z.to_nat (cursor m - len (keys m))) items)
                   = len items - 1).
    { unfold len in *. rewrite length_delete; [lia |].
      apply lookup_lt_is_Some_2. lia. }
    split; [done |]. split; [done |]. split; [done |]. split.
    + case_if; [lia |]. rewrite E, Hlen. reflexivity.
    + rewrite (selectedItems_key _ key) by done. simp_model.
      by rewrite mapget_insert.
  - intros Hrow. exists (updateInputs (KeyMsg "d") m). split.
    + case_if; [lia |]. by apply deleteItem_miss.
    + unfold updateInputs. simp_model.
      split_and!; try done; apply ti_Update_focus.
Qed.

(** C4, witness: "Groceries" holds milk and eggs and the cursor is on
    "eggs"; the delete key leaves milk and the cursor on it (row 1). *)
Lemma delete_item_spec_witness :
  reachable (H := SimpleLib) on_eggs /\
  exists o,
    Update (H := SimpleLib) (KeyMsg "d") on_eggs = Some o /\
    selectedItems (next o) = Some [milk] /\
    cursor (next o) = 1.
Proof.
  assert (Hr : reachable (H := SimpleLib) on_eggs).
  { apply (start_Some_reachable groceries [KeyMsg "up"] on_eggs []).
    vm_compute. reflexivity. }
  split; [exact Hr |].
  destruct (delete_item_spec (L := SimpleLib) on_eggs [milk; eggs] Hr eq_refl)
    as [Hhit _].
  destruct Hhit as (key & newItems & Hkey & -> & _ & E & _).
  { vm_compute. split; [discriminate | reflexivity]. }
  vm_compute in Hkey. injection Hkey as <-.
  eexists. split; [exact E |]. split; vm_compute; reflexivity.
Defined.

(** C5. In a reachable model whose cursor addresses a key row, the delete
    key removes that key from the key sequence and its entry from the
    mapping.  If no key remains, selectedList and cursor are 0 and the
    add-list field gets the focus.  Otherwise the selection moves to the
    previous key (not below 0) when the selected key was deleted, is
    decremented when an earlier key was deleted and stays when a later one
    was; the cursor is set to the selection, which is a valid key row, and
    both fields are blurred. *)
Theorem delete_list_spec `{L : TextLib} (m : model) :
  reachable m -> 0 <= cursor m < len (keys m) ->
  exists key o,
    index (keys m) (cursor m) = Some key /\
    Update (KeyMsg "d") m = Some o /\
    keys (next o) = delete (Z.to_nat (cursor m)) (keys m) /\
    lists (next o) = delete key (lists m) /\
    (len (keys (next o)) = 0 ->
       selectedList (next o) = 0 /\ cursor (next o) = 0 /\
       focus (newListTextInput (next o)) = true /\
       focus (textInput (next o)) = false) /\
    (0 < len (keys (next o)) ->
       (cursor m = selectedList m ->
          selectedList (next o) = Z.max 0 (selectedList m - 1)) /\
       (cursor m < selectedList m ->
          selectedList (next o) = selectedList m - 1) /\
       (selectedList m < cursor m ->
          selectedList (next o) = selectedList m) /\
       cursor (next o) = selectedList (next o) /\
       0 <= selectedList (next o) < len (keys (next o)) /\
       focus (textInput (next o)) = false /\
       focus (newListTextInput (next o)) = false).
Proof.
  intros Hm [Hlo Hrow]. pose proof (reachable_Inv m Hm) as HI.
  pose proof HI as [_ _ (items & Hi & _)].
  destruct (deleteList_spec m HI Hrow)
    as (key & o & Hkey & E & _ & _ & Hkeys & _ & Hlists & _ & Hzero & Hpos).
  exists key, o. rewrite (Update_d m items Hi).
  split; [done |]. split; [by case_if; [| lia] |].
  split; [done |]. split; [done |]. split; [done |].
  intros Hk. destruct (Hpos Hk) as (Hsel & Hcur & Hrange & Hf1 & Hf2).
  split; [| split; [| split; [| done]]]; intros Hc; rewrite Hsel;
    repeat case_if; lia.
Qed.

(** C5, witness: lists "A" and "B", "B" selected, the cursor on the key
    row of "A"; the delete key leaves the key "B", selected, under the
    cursor. *)
Lemma delete_list_spec_witness :
  reachable (H := SimpleLib) on_key_A /\
  0 <= cursor on_key_A < len (keys on_key_A) /\
  exists o,
    Update (H := SimpleLib) (KeyMsg "d") on_key_A = Some o /\
    keys (next o) = ["B"] /\
    selectedList (next o) = 0 /\
    cursor (next o) = 0.
Proof.
  assert (Hr : reachable (H := SimpleLib) on_key_A).
  { apply (start_Some_reachable two_lists
             [KeyMsg "up"; KeyMsg "enter"; KeyMsg "up"] on_key_A []).
    vm_compute. reflexivity. }
  assert (Hrow : 0 <= cursor on_key_A < len (keys on_key_A)).
  { vm_compute. split; [discriminate | reflexivity]. }
  split; [exact Hr |]. split; [exact Hrow |].
  destruct (delete_list_spec (L := SimpleLib) on_key_A Hr Hrow)
    as (key & o & _ & E & Hkeys & _ & _ & Hpos).
  exists o. split; [exact E |]. split; [exact Hkeys |].
  destruct Hpos as (_ & Hlt & _ & Hcur & _).
  { rewrite Hkeys. vm_compute. reflexivity. }
  rewrite Hcur. split; apply Hlt; vm_compute; reflexivity.
Defined.



(** C7, at the failing input: the single-list variant of [src/main.go].
    The program starts on an empty list with the cursor on the input row
    and an empty field; the confirm key appends an item with empty text and
    advances the cursor.  The text is not trimmed or tested at all, so the
    same holds for any blank text. *)
Theorem single_list_accepts_blank_item `{L : TextLib} (blank : string) :
  let m := Single.mkModel [] 0 (ti_SetValue blank (Single.textInput (Single.initialModel []))) in
  Single.Update (KeyMsg "enter") (Single.initialModel []) =
    Some (Single.mkOutcome
            (Single.mkModel [mkItem "" false] 1 (Single.textInput (Single.initialModel [])))
            cmdOther None) /\
  Single.Update (KeyMsg "enter") m =
    Some (Single.mkOutcome
            (Single.mkModel [mkItem blank false] 1 (Single.textInput (Single.initialModel [])))
            cmdOther None).
Proof. split; reflexivity. Qed.

(** In the multi-list model the confirm key on an input row whose text is
    blank changes neither the data nor the navigation state. *)
Lemma blank_confirm_is_ignored `{L : TextLib} (m : model) (items : list listItem) :
  reachable m -> selectedItems m = Some items ->
  (0 < len (keys m) /\ cursor m = len (keys m) + len items /\
   TrimSpace (Value (textInput m)) = "") \/
  (cursor m = len (keys m) + len items + inputsCount m - 1 /\
   TrimSpace (Value (newListTextInput m)) = "") ->
  exists o,
    Update (KeyMsg "enter") m = Some o /\
    keys (next o) = keys m /\ lists (next o) = lists m /\
    selectedList (next o) = selectedList m /\ cursor (next o) = cursor m /\
    listStartOffset (next o) = listStartOffset m /\
    focus (textInput (next o)) = focus (textInput m) /\
    focus (newListTextInput (next o)) = focus (newListTextInput m).
Proof.
  intros Hm Hi Hcase. pose proof (reachable_Inv m Hm) as HI.
  rewrite (Update_enter m items Hi).
  rewrite (enterKey_blank (KeyMsg "enter") m items _ _ HI Hi eq_refl eq_refl Hcase).
  eexists. split; [reflexivity |]. unfold updateInputs. simp_model.
  split_and!; try done; apply ti_Update_focus.
Qed.

(** C8. In a reachable model with at least one list and the cursor on the
    add-item row, the add-item field has the focus and the key "q" does not
    quit: it only edits the text of that field, and nothing is saved.  In
    every other reachable model "q" saves the snapshot (keys and lists) and
    returns [tea.Quit]; "ctrl+c" does so in every reachable model, and the
    event loop delivers no further message. *)
Theorem quit_key_spec `{L : TextLib} (m : model) (items : list listItem) :
  reachable m -> selectedItems m = Some items ->
  (0 < len (keys m) /\ cursor m = len (keys m) + len items ->
     focus (textInput m) = true /\
     focus (newListTextInput m) = false /\
     Update (KeyMsg "q") m =
       Some (mkOutcome
               (set_textInput
                  (ti_SetValue (fieldEdit (KeyMsg "q") (Value (textInput m)))
                               (textInput m)) m)
               cmdOther None)) /\
  (~ (0 < len (keys m) /\ cursor m = len (keys m) + len items) ->
     Update (KeyMsg "q") m = Some (mkOutcome m cmdQuit (Some (snapshot m))) /\
     forall rest, run (KeyMsg "q" :: rest) m = Some (m, [snapshot m])) /\
  Update (KeyMsg "ctrl+c") m = Some (mkOutcome m cmdQuit (Some (snapshot m))) /\
  (forall rest, run (KeyMsg "ctrl+c" :: rest) m = Some (m, [snapshot m])) /\
  snapshot m = mkJsonData (keys m) (Some (lists m)).
Proof.
  intros Hm Hi. pose proof (reachable_Inv m Hm) as HI.
  pose proof HI as [Ho _ (items' & Hi' & Hc & F1 & F2)].
  rewrite Hi in Hi'. injection Hi' as <-.
  split; [| split; [| split; [| split; [| done]]]].
  - intros [Hk Hrow].
    assert (Hf1 : focus (textInput m) = true) by (by apply F1).
    assert (Hf2 : focus (newListTextInput m) = false).
    { destruct (focus (newListTextInput m)); [| done].
      specialize (F2 eq_refl). unfold inputsCount in F2.
      destruct (0 <? len (keys m)) eqn:E; lia. }
    split; [done |]. split; [done |].
    rewrite (Update_q m items Hi). unfold getItemCursor.
    case_if; [| lia].
    unfold updateInputs. simp_model.
    rewrite (ti_Update_blurred _ _ Hf2).
    unfold ti_Update. rewrite Hf1. destruct m; reflexivity.
  - intros Hnot.
    assert (E : Update (KeyMsg "q") m = Some (mkOutcome m cmdQuit (Some (snapshot m)))).
    { rewrite (Update_q m items Hi). unfold getItemCursor.
      case_if; [| done]. exfalso. apply Hnot. lia. }
    split; [done |]. intros rest. simpl run. rewrite E. reflexivity.
  - by apply (Update_ctrl_c m items).
  - intros rest. simpl run. rewrite (Update_ctrl_c m items Hi). reflexivity.
Qed.

(** C8, witness: the program starts on one list "A" with the cursor on the
    add-item row; "q" is typed into the add-item field, "ctrl+c" quits and
    saves. *)
Lemma quit_key_spec_witness :
  reachable (H := SimpleLib) at_add_item /\
  Update (H := SimpleLib) (KeyMsg "q") at_add_item =
    Some (mkOutcome
            (set_textInput (mkTextInput "q" true focusedStyle focusedStyle) at_add_item)
            cmdOther None) /\
  Update (H := SimpleLib) (KeyMsg "ctrl+c") at_add_item =
    Some (mkOutcome at_add_item cmdQuit (Some (mkJsonData ["A"] (Some {["A" := []]})))).
Proof.
  assert (Hr : reachable (H := SimpleLib) at_add_item).
  { apply (reach_init one_list). vm_compute. reflexivity. }
  split; [exact Hr |].
  destruct (quit_key_spec (L := SimpleLib) at_add_item [] Hr eq_refl)
    as (Hq & _ & Hc & _).
  split.
  - destruct Hq as (_ & _ & E).
    { vm_compute. split; reflexivity. }
    rewrite E. vm_compute. reflexivity.
  - rewrite Hc. vm_compute. reflexivity.
Defined.

(** * Persistence *)

Lemma decode_items_encode (l : list listItem) :
  decode_items (encode_items l) = Some l.
Proof.
  unfold decode_items, encode_items.
  induction l as [| [s b] l IH]; [reflexivity |].
  simpl map. simpl mapM.
  replace (decode_item (encode_item (mkItem s b))) with (Some (mkItem s b))
    by reflexivity.
  simpl mbind. rewrite IH. reflexivity.
Qed.






(** * Further facts about the move keys *)

Lemma wrap_mod (c rows : Z) :
  0 < rows -> -1 <= c <= rows ->
  (if rows <=? c then 0 else if c <? 0 then rows - 1 else c) = c mod rows.
Proof.
  intros Hr Hc. repeat case_if.
  - replace c with rows by lia. by rewrite Z.mod_same by lia.
  - apply (Z.mod_unique _ _ (-1)); lia.
  - by rewrite Z.mod_small by lia.
Qed.

(** A move key steps the cursor by one and wraps it modulo the number of
    rows; the focus it leaves is the one of the row the cursor had before
    the wrap. *)
Lemma move_spec `{L : TextLib} (m : model) (items : list listItem) (s : string) :
  reachable m -> selectedItems m = Some items ->
  s = "tab" \/ s = "shift+tab" \/ s = "up" \/ s = "down" ->
  let rows := len (keys m) + len items + inputsCount m in
  let stepped :=
    if String.eqb s "up" || String.eqb s "shift+tab"
    then cursor m - 1 else cursor m + 1 in
  exists o,
    Update (KeyMsg s) m = Some o /\
    cursor (next o) = stepped mod rows /\
    (focus (textInput (next o)) = true <->
       0 < len (keys m) /\ stepped = len (keys m) + len items) /\
    (focus (newListTextInput (next o)) = true <-> stepped = rows - 1) /\
    keys (next o) = keys m /\ lists (next o) = lists m /\
    selectedList (next o) = selectedList m.
Proof.
  intros Hm Hi Hs rows stepped. pose proof (reachable_Inv m Hm) as HI.
  pose proof HI as [Ho _ (items' & Hi' & Hc & _)].
  rewrite Hi in Hi'. injection Hi' as <-.
  pose proof (len_nonneg items) as Hn. pose proof (len_nonneg (keys m)) as Hk.
  assert (E : Update (KeyMsg s) m =
              Some (moveCursor s rows (rows - 1)
                      (if inputsCount m =? 2 then rows - 2 else -1) m)).
  { unfold Update. rewrite Hi.
    destruct Hs as [-> | [-> | [-> | ->]]]; reflexivity. }
  eexists. split; [exact E |]. subst rows stepped.
  unfold moveCursor, inputsCount in *. simp_model.
  destruct (String.eqb s "up" || String.eqb s "shift+tab"); simp_model;
    repeat case_if; try (exfalso; lia);
    (split; [ rewrite <- wrap_mod by lia; repeat case_if; lia
            | split_and!; try done; split; first [ discriminate | lia | done ] ]).
Qed.

(** * The row projection *)

(** [screenItems] has exactly [total] rows: the cursor of a reachable model
    addresses one of them. *)
Lemma screenItems_rows (m : model) (items : list listItem) :
  selectedItems m = Some items ->
  exists rows,
    screenItems m = Some rows /\
    total m = Some (len rows).
Proof.
  intros Hi. rewrite (total_rows m items Hi).
  unfold screenItems, selectedItems, inputsCount in *.
  destruct (0 <? len (keys m)) eqn:Hk.
  - destruct (index (keys m) (selectedList m)) as [key |]; [| discriminate].
    simpl in Hi. injection Hi as <-. simpl mbind.
    eexists. split; [reflexivity |].
    rewrite !len_app. unfold len. rewrite !length_imap. simpl length.
    f_equal. lia.
  - injection Hi as <-. simpl mbind.
    eexists. split; [reflexivity |].
    rewrite !len_app. unfold len. rewrite !length_imap. simpl length.
    f_equal. lia.
Qed.

Lemma cursor_addresses_a_row `{L : TextLib} (m : model) :
  reachable m ->
  exists rows row, screenItems m = Some rows /\ index rows (cursor m) = Some row.
Proof.
  intros Hm. destruct (reachable_Inv m Hm) as [_ _ (items & Hi & Hc & _)].
  destruct (screenItems_rows m items Hi) as (rows & Hrows & Htotal).
  rewrite (total_rows m items Hi) in Htotal. injection Htotal as Htotal.
  destruct (index_in_range rows (cursor m)) as [row Hrow]; [lia |].
  by exists rows, row.
Qed.

(** * Keys and mapping entries *)










(** * Further properties of the multi-list model *)

Lemma set_lists_same (m : model) : set_lists (lists m) m = m.
Proof. by destruct m. Qed.

Lemma mapget_nonempty (l : gmap string (list listItem)) (k : string) :
  0 < len (mapget l k) -> l !! k = Some (mapget l k).
Proof.
  unfold mapget. destruct (l !! k) as [v |]; [done |].
  simpl. pose proof (@len_nil listItem). lia.
Qed.

Lemma on_key_A_reachable : reachable (H := SimpleLib) on_key_A.
Proof.
  apply (start_Some_reachable two_lists
           [KeyMsg "up"; KeyMsg "enter"; KeyMsg "up"] on_key_A []).
  vm_compute. reflexivity.
Qed.

Lemma on_eggs_reachable : reachable (H := SimpleLib) on_eggs.
Proof.
  apply (start_Some_reachable groceries [KeyMsg "up"] on_eggs []).
  vm_compute. reflexivity.
Qed.

Lemma at_add_item_reachable : reachable (H := SimpleLib) at_add_item.
Proof. apply (reach_init one_list). vm_compute. reflexivity. Qed.

(** X1. In a reachable model whose cursor addresses a key row, the confirm
    key selects that key and changes nothing else: cursor, keys, lists,
    fields and offset stay, nothing is saved.  The item rows are from then
    on those of the list stored under the chosen key. *)
Theorem select_list_spec `{L : TextLib} (m : model) :
  reachable m -> 0 <= cursor m < len (keys m) ->
  exists key,
    index (keys m) (cursor m) = Some key /\
    Update (KeyMsg "enter") m =
      Some (mkOutcome (set_selectedList (cursor m) m) cmdOther None) /\
    selectedItems (set_selectedList (cursor m) m) = Some (mapget (lists m) key).
Proof.
  intros Hm Hrow. pose proof (reachable_Inv m Hm) as HI.
  pose proof HI as [_ _ (items & Hi & _)].
  pose proof (len_nonneg items) as Hn.
  destruct (Inv_blurred_before m items HI Hi) as [Hf1 Hf2]; [lia |].
  destruct (index_in_range (keys m) (cursor m) Hrow) as [key Hkey].
  exists key. split; [done |]. split.
  - rewrite (Update_enter m items Hi). unfold enterKey.
    case_if; [| lia].
    by rewrite (updateInputs_blurred _ (set_selectedList (cursor m) m) Hf1 Hf2).
  - by apply (selectedItems_key (set_selectedList (cursor m) m) key).
Qed.

(** X1, witness: with "B" selected and the cursor on the key row of "A",
    the confirm key selects "A". *)
Lemma select_list_spec_witness :
  exists o,
    Update (H := SimpleLib) (KeyMsg "enter") on_key_A = Some o /\
    selectedList (next o) = 0 /\ cursor (next o) = 0.
Proof.
  destruct (select_list_spec (L := SimpleLib) on_key_A on_key_A_reachable)
    as (key & _ & E & _).
  { vm_compute. split; [discriminate | reflexivity]. }
  eexists. split; [exact E |]. split; reflexivity.
Defined.

Lemma toggle_item_hit_aux `{L : TextLib} (m : model) (items : list listItem)
    (space : bool) :
  reachable m -> selectedItems m = Some items ->
  len (keys m) <= cursor m < len (keys m) + len items ->
  exists key it,
    index (keys m) (selectedList m) = Some key /\
    index items (cursor m - len (keys m)) = Some it /\
    Update (toggleKey space) m =
      Some (mkOutcome
              (set_lists
                 (<[key := <[Z.to_nat (cursor m - len (keys m)) :=
                               mkItem (Item it) (negb (Completed it))]> items]>
                    (lists m)) m)
              cmdOther None).
Proof.
  intros Hm Hi Hrow. pose proof (reachable_Inv m Hm) as HI.
  pose proof HI as [Ho _ _].
  destruct (Inv_blurred_before m items HI Hi) as [Hf1 Hf2]; [lia |].
  assert (Hic : 0 <= getItemCursor m < len items) by (unfold getItemCursor; lia).
  destruct (toggleItem_hit m items _ Hi Hic) as (key & it & Hkey & Hits & Hit & E).
  assert (Hgc : getItemCursor m = cursor m - len (keys m))
    by (unfold getItemCursor; lia).
  rewrite Hgc in *.
  exists key, it. split; [done |]. split; [done |].
  unfold Update. rewrite Hi. simpl mbind. fold (getItemCursor m). rewrite Hgc.
  destruct space; simpl.
  - case_if; [| lia]. rewrite E. simpl mbind.
    by rewrite updateInputs_blurred.
  - unfold enterKey. rewrite E. repeat case_if; try lia. simpl mbind.
    by rewrite updateInputs_blurred.
Qed.

(** X2. In a reachable model whose cursor addresses an item row, the confirm
    key and the space key do the same: they flip the completed flag of the
    item under the cursor and leave its text, every other item, every other
    list, the cursor and the fields as they are. *)
Theorem toggle_item_spec `{L : TextLib} (m : model) (items : list listItem)
    (space : bool) :
  reachable m -> selectedItems m = Some items ->
  len (keys m) <= cursor m < len (keys m) + len items ->
  exists key it,
    index (keys m) (selectedList m) = Some key /\
    index items (cursor m - len (keys m)) = Some it /\
    Update (toggleKey space) m =
      Some (mkOutcome
              (set_lists
                 (<[key := <[Z.to_nat (cursor m - len (keys m)) :=
                               mkItem (Item it) (negb (Completed it))]> items]>
                    (lists m)) m)
              cmdOther None).
Proof. apply toggle_item_hit_aux. Qed.

(** X2, witness: the space key on "eggs" marks it completed. *)
Lemma toggle_item_spec_witness :
  exists o,
    Update (H := SimpleLib) (KeyMsg " ") on_eggs = Some o /\
    selectedItems (next o) = Some [milk; mkItem "eggs" true] /\
    cursor (next o) = 2.
Proof.
  destruct (toggle_item_spec (L := SimpleLib) on_eggs [milk; eggs] true
              on_eggs_reachable eq_refl)
    as (key & it & Hkey & Hit & E).
  { vm_compute. split; [discriminate | reflexivity]. }
  vm_compute in Hkey. injection Hkey as <-.
  vm_compute in Hit. injection Hit as <-.
  eexists. split; [exact E |]. split; vm_compute; reflexivity.
Defined.

(** X3. Toggling the item under the cursor twice, with either key each
    time, gives back the model exactly as it was. *)
Theorem toggle_twice_restores `{L : TextLib} (m : model) (items : list listItem)
    (first second : bool) :
  reachable m -> selectedItems m = Some items ->
  len (keys m) <= cursor m < len (keys m) + len items ->
  exists o1 o2,
    Update (toggleKey first) m = Some o1 /\
    Update (toggleKey second) (next o1) = Some o2 /\
    next o2 = m.
Proof.
  intros Hm Hi Hrow.
  destruct (toggle_item_hit_aux m items first Hm Hi Hrow)
    as (key & it & Hkey & Hit & E1).
  set (n := Z.to_nat (cursor m - len (keys m))) in *.
  set (it' := mkItem (Item it) (negb (Completed it))).
  set (m1 := set_lists (<[key := <[n := it']> items]> (lists m)) m).
  assert (Hm1 : reachable m1).
  { exact (reach_step m (toggleKey first) (mkOutcome m1 cmdOther None) Hm E1). }
  assert (Hi1 : selectedItems m1 = Some (<[n := it']> items)).
  { rewrite (selectedItems_key m1 key) by done.
    unfold m1. simp_model. by rewrite mapget_insert. }
  assert (Hrow1 : len (keys m1) <= cursor m1 < len (keys m1) + len (<[n := it']> items)).
  { unfold m1. simp_model. by rewrite len_insert. }
  destruct (toggle_item_hit_aux m1 _ second Hm1 Hi1 Hrow1)
    as (key1 & it1 & Hkey1 & Hit1 & E2).
  eexists _, _. split; [exact E1 |]. split; [exact E2 |]. simp_model.
  assert (key1 = key) as -> by (unfold m1 in Hkey1; simp_model; congruence).
  unfold m1 in *. simp_model. fold n in Hit1 |- *.
  apply index_Some in Hit as [_ Hit]. apply index_Some in Hit1 as [_ Hit1].
  fold n in Hit, Hit1.
  rewrite list_lookup_insert_eq in Hit1 by (by eapply lookup_lt_Some).
  injection Hit1 as <-. subst it'. simpl.
  rewrite negb_involutive, list_insert_insert_eq.
  replace (mkItem (Item it) (Completed it)) with it by (by destruct it).
  rewrite (list_insert_id items n it Hit).
  rewrite insert_insert_eq.
  destruct (selectedItems_inv m items Hi) as [[_ ->] | (key' & _ & Hkey' & Hits)].
  { pose proof (@len_nil listItem). lia. }
  assert (key' = key) as -> by congruence.
  rewrite insert_id; [by destruct m |].
  rewrite Hits. apply mapget_nonempty. rewrite <- Hits. lia.
Qed.

(** X3, witness: space then confirm on "eggs" leaves the model as it was. *)
Lemma toggle_twice_restores_witness :
  exists o1 o2,
    Update (H := SimpleLib) (KeyMsg " ") on_eggs = Some o1 /\
    Update (H := SimpleLib) (KeyMsg "enter") (next o1) = Some o2 /\
    next o2 = on_eggs.
Proof.
  refine (toggle_twice_restores (L := SimpleLib) on_eggs [milk; eggs] true false
            on_eggs_reachable eq_refl _).
  vm_compute. split; [discriminate | reflexivity].
Defined.





(** * Moving *)

Lemma Update_move `{L : TextLib} (m : model) (items : list listItem) (s : string) :
  selectedItems m = Some items ->
  s = "tab" \/ s = "shift+tab" \/ s = "up" \/ s = "down" ->
  Update (KeyMsg s) m =
    Some (moveCursor s (len (keys m) + len items + inputsCount m)
            (len (keys m) + len items + inputsCount m - 1)
            (if inputsCount m =? 2
             then len (keys m) + len items + inputsCount m - 2 else -1) m).
Proof.
  intros Hi Hs. unfold Update. rewrite Hi.
  destruct Hs as [-> | [-> | [-> | ->]]]; reflexivity.
Qed.

(** X6. In a reachable model a move key ("up" and "shift+tab" backwards,
    "down" and "tab" forwards) steps the cursor by one and wraps it modulo
    the number of rows, and changes neither keys nor lists nor the
    selection.  The add-item field is focused afterwards exactly when the
    stepped cursor, before the wrap, is the add-item row, and the add-list
    field exactly when it is the add-list row. *)
Theorem move_keys_spec `{L : TextLib} (m : model) (items : list listItem) (s : string) :
  reachable m -> selectedItems m = Some items ->
  s = "tab" \/ s = "shift+tab" \/ s = "up" \/ s = "down" ->
  let rows := len (keys m) + len items + inputsCount m in
  let stepped :=
    if String.eqb s "up" || String.eqb s "shift+tab"
    then cursor m - 1 else cursor m + 1 in
  exists o,
    Update (KeyMsg s) m = Some o /\
    cursor (next o) = stepped mod rows /\
    (focus (textInput (next o)) = true <->
       0 < len (keys m) /\ stepped = len (keys m) + len items) /\
    (focus (newListTextInput (next o)) = true <-> stepped = rows - 1) /\
    keys (next o) = keys m /\ lists (next o) = lists m /\
    selectedList (next o) = selectedList m.
Proof. apply move_spec. Qed.

(** X6, witness: "down" on the add-item row of the one list "A" (row 1 of
    3) puts the cursor on the add-list row and focuses its field. *)
Lemma move_keys_spec_witness :
  exists o,
    Update (H := SimpleLib) (KeyMsg "down") at_add_item = Some o /\
    cursor (next o) = 2 /\
    focus (newListTextInput (next o)) = true /\
    focus (textInput (next o)) = false.
Proof.
  destruct (move_keys_spec (L := SimpleLib) at_add_item [] "down"
              at_add_item_reachable eq_refl)
    as (o & E & Hcur & _).
  { right. right. right. reflexivity. }
  exists o. split; [exact E |].
  vm_compute in E. injection E as <-. vm_compute. split_and!; reflexivity.
Defined.

Lemma downs_aux `{L : TextLib} (n : nat) :
  forall (m : model) (items : list listItem),
    reachable m -> selectedItems m = Some items ->
    exists m',
      run (replicate n (KeyMsg "down")) m = Some (m', []) /\
      cursor m' = (cursor m + Z.of_nat n) mod (len (keys m) + len items + inputsCount m) /\
      keys m' = keys m /\ lists m' = lists m /\ selectedList m' = selectedList m.
Proof.
  induction n as [| n IH]; intros m items Hm Hi.
  - exists m. split; [reflexivity |].
    destruct (reachable_Inv m Hm) as [_ _ (items' & Hi' & Hc & _)].
    rewrite Hi in Hi'. injection Hi' as <-.
    rewrite Z.add_0_r, Z.mod_small by lia. done.
  - destruct (move_spec m items "down" Hm Hi)
      as (o & E & Hcur & _ & _ & Hk & Hl & Hs); [by repeat right |].
    assert (Ecmd : cmd o = cmdOther /\ saved o = None).
    { rewrite (Update_move m items "down" Hi) in E by (by repeat right).
      by injection E as <-. }
    destruct Ecmd as [Ecmd Esaved].
    assert (Hi1 : selectedItems (next o) = Some items).
    { rewrite <- Hi. by apply selectedItems_ext. }
    destruct (IH (next o) items) as (m' & Hrun & Hcur' & Hk' & Hl' & Hs').
    { by apply (reach_step m (KeyMsg "down")). }
    { done. }
    exists m'. split.
    + simpl replicate. simpl run. rewrite E. simpl mbind.
      rewrite Ecmd, Hrun, Esaved. reflexivity.
    + unfold inputsCount in *. rewrite Hk in *. rewrite Hcur' , Hcur.
      simpl in *. split; [| by rewrite Hk', Hl', Hs'].
      rewrite Zplus_mod_idemp_l. f_equal. lia.
Qed.

(** X7. In a reachable model, pressing "down" n times moves the cursor n
    rows forward modulo the number of rows, whatever else is on screen, and
    changes no data; pressing it once per row brings the cursor back to
    where it was. *)
Theorem downs_cycle `{L : TextLib} (n : nat) (m : model) (items : list listItem) :
  reachable m -> selectedItems m = Some items ->
  let rows := len (keys m) + len items + inputsCount m in
  (exists m',
     run (replicate n (KeyMsg "down")) m = Some (m', []) /\
     cursor m' = (cursor m + Z.of_nat n) mod rows /\
     keys m' = keys m /\ lists m' = lists m /\ selectedList m' = selectedList m) /\
  (exists m',
     run (replicate (Z.to_nat rows) (KeyMsg "down")) m = Some (m', []) /\
     cursor m' = cursor m).
Proof.
  intros Hm Hi rows. split; [by apply downs_aux |].
  destruct (downs_aux (Z.to_nat rows) m items Hm Hi) as (m' & Hrun & Hcur & _).
  exists m'. split; [done |].
  destruct (reachable_Inv m Hm) as [_ _ (items' & Hi' & Hc & _)].
  rewrite Hi in Hi'. injection Hi' as <-. fold rows in Hcur, Hc.
  rewrite Hcur, Z2Nat.id by lia.
  rewrite <- (Z.mul_1_l rows) at 1. rewrite Z.mod_add by lia.
  by rewrite Z.mod_small by lia.
Qed.

(** X7, witness: from "eggs" (row 2 of 5) four "down" lead to row 1 and
    five back to "eggs". *)
Lemma downs_cycle_witness :
  (exists m',
     run (H := SimpleLib) (replicate 4 (KeyMsg "down")) on_eggs = Some (m', []) /\
     cursor m' = 1) /\
  (exists m',
     run (H := SimpleLib) (replicate 5 (KeyMsg "down")) on_eggs = Some (m', []) /\
     cursor m' = 2).
Proof.
  destruct (downs_cycle (L := SimpleLib) 4 on_eggs [milk; eggs]
              on_eggs_reachable eq_refl) as [(m1 & E1 & H1 & _) (m2 & E2 & H2)].
  split.
  - exists m1. split; [exact E1 |]. rewrite H1. vm_compute. reflexivity.
  - exists m2. split; [exact E2 |]. rewrite H2. reflexivity.
Defined.

(** * Rows *)

Lemma index_app_l {A : Type} (l k : list A) (i : Z) :
  0 <= i < len l -> index (l ++ k) i = index l i.
Proof.
  intros [Hlo Hhi]. unfold index, len in *.
  destruct (0 <=? i); [| done]. apply lookup_app_l. lia.
Qed.

Lemma index_app_r {A : Type} (l k : list A) (i : Z) :
  len l <= i -> index (l ++ k) i = index k (i - len l).
Proof.
  intros Hlo. pose proof (len_nonneg l). unfold index, len in *.
  destruct (Z.leb_spec 0 i); [| lia].
  destruct (Z.leb_spec 0 (i - Z.of_nat (length l))); [| lia].
  rewrite lookup_app_r by lia. f_equal. lia.
Qed.

Lemma index_imap {A B : Type} (f : nat -> A -> B) (l : list A) (i : Z) :
  index (imap f l) i = f (Z.to_nat i) <$> index l i.
Proof.
  unfold index. destruct (0 <=? i); [| done]. apply list_lookup_imap.
Qed.

(** X8. The projection [screenItems] lays the rows out as [Update] counts
    them: row i is the key row of key i for i below the number of keys, the
    item row of item i - K of the selected list for the next rows, then the
    add-item row when a key exists, and last the add-list row.  So the row
    under the cursor is of the kind whose branch [Update] takes. *)
Theorem screen_row_kinds (m : model) (items : list listItem) (i : Z) :
  selectedItems m = Some items ->
  0 <= i < len (keys m) + len items + inputsCount m ->
  exists rows row,
    screenItems m = Some rows /\
    len rows = len (keys m) + len items + inputsCount m /\
    index rows i = Some row /\
    row =
      (if i <? len (keys m) then mkScreenItem kindKey i 0
       else if i <? len (keys m) + len items
            then mkScreenItem kindItem 0 (i - len (keys m))
       else if (0 <? len (keys m)) && (i =? len (keys m) + len items)
            then mkScreenItem kindNewItem 0 0
       else mkScreenItem kindNewList 0 0).
Proof.
  intros Hi Hrange.
  destruct (screenItems_rows m items Hi) as (rows & Hrows & Htotal).
  rewrite (total_rows m items Hi) in Htotal. injection Htotal as Htotal.
  exists rows.
  pose proof (len_nonneg (keys m)) as Hkn. pose proof (len_nonneg items) as Hn.
  assert (Hshape :
      rows = imap (fun i _ => mkScreenItem kindKey (Z.of_nat i) 0) (keys m)
             ++ imap (fun i _ => mkScreenItem kindItem 0 (Z.of_nat i)) items
             ++ (if 0 <? len (keys m) then [mkScreenItem kindNewItem 0 0] else [])
             ++ [mkScreenItem kindNewList 0 0]).
  { unfold screenItems, selectedItems in *.
    destruct (0 <? len (keys m)).
    - destruct (index (keys m) (selectedList m)); [| done].
      simpl in *. injection Hi as <-. by injection Hrows as <-.
    - simpl in *. injection Hi as <-. by injection Hrows as <-. }
  assert (Hl1 : forall A (l : list A) (f : nat -> A -> screenItem),
             len (imap f l) = len l).
  { intros A l f. unfold len. by rewrite length_imap. }
  destruct (index_in_range rows i) as [row Hrow]; [lia |].
  exists row. split; [done |]. split; [lia |]. split; [done |].
  rewrite Hshape in Hrow. clear Hshape Hrows.
  case_if.
  { rewrite index_app_l in Hrow by (rewrite Hl1; lia).
    rewrite index_imap in Hrow.
    destruct (index (keys m) i); [| done]. simpl in Hrow.
    injection Hrow as <-. f_equal. lia. }
  rewrite index_app_r in Hrow by (rewrite Hl1; lia). rewrite Hl1 in Hrow.
  case_if.
  { rewrite index_app_l in Hrow by (rewrite Hl1; lia).
    rewrite index_imap in Hrow.
    destruct (index items (i - len (keys m))); [| done]. simpl in Hrow.
    injection Hrow as <-. f_equal. lia. }
  rewrite index_app_r in Hrow by (rewrite Hl1; lia). rewrite Hl1 in Hrow.
  unfold inputsCount in Hrange.
  destruct (0 <? len (keys m)) eqn:Hk; simpl andb.
  - case_if.
    + replace (i - len (keys m) - len items) with 0 in Hrow by lia.
      by injection Hrow as <-.
    + replace (i - len (keys m) - len items) with 1 in Hrow by lia.
      by injection Hrow as <-.
  - replace (i - len (keys m) - len items) with 0 in Hrow by lia.
    by injection Hrow as <-.
Qed.

(** X8, witness: row 2 of "Groceries" with milk and eggs is the item row of
    item 1, and row 3 the add-item row. *)
Lemma screen_row_kinds_witness :
  exists rows,
    screenItems on_eggs = Some rows /\
    index rows 2 = Some (mkScreenItem kindItem 0 1) /\
    index rows 3 = Some (mkScreenItem kindNewItem 0 0).
Proof.
  destruct (screen_row_kinds on_eggs [milk; eggs] 2 eq_refl)
    as (rows & row & Hrows & _ & Hrow & ->).
  { vm_compute. split; [discriminate | reflexivity]. }
  exists rows. split; [exact Hrows |]. split; [exact Hrow |].
  vm_compute in Hrows. injection Hrows as <-. reflexivity.
Defined.

(** * Keys and entries, continued *)





(** X11. A message [Update] has no case for (a letter, a digit, a blink
    tick) never changes keys, lists, selection, cursor, offset or focus and
    never quits or saves: it only reaches the text inputs.  On a key row or
    an item row, where no field is focused, it changes nothing at all. *)
Theorem unhandled_message_only_edits_text `{L : TextLib} (m : model)
    (items : list listItem) (msg : Msg) :
  reachable m -> selectedItems m = Some items -> handled msg = false ->
  Update msg m = Some (updateInputs msg m) /\
  keys (next (updateInputs msg m)) = keys m /\
  lists (next (updateInputs msg m)) = lists m /\
  selectedList (next (updateInputs msg m)) = selectedList m /\
  cursor (next (updateInputs msg m)) = cursor m /\
  listStartOffset (next (updateInputs msg m)) = listStartOffset m /\
  focus (textInput (next (updateInputs msg m))) = focus (textInput m) /\
  focus (newListTextInput (next (updateInputs msg m))) = focus (newListTextInput m) /\
  cmd (updateInputs msg m) = cmdOther /\ saved (updateInputs msg m) = None /\
  (cursor m < len (keys m) + len items ->
     Update msg m = Some (mkOutcome m cmdOther None)).
Proof.
  intros Hm Hi Hh. pose proof (reachable_Inv m Hm) as HI.
  assert (E : Update msg m = Some (updateInputs msg m)).
  { unfold Update. rewrite Hi. simpl mbind.
    destruct msg as [s |]; [| done]. unfold handled in Hh.
    destruct (String.eqb s "ctrl+c"); [done |].
    destruct (String.eqb s "q"); [done |].
    destruct (String.eqb s "d"); [done |].
    destruct (String.eqb s "tab"); [done |].
    destruct (String.eqb s "shift+tab"); [done |].
    destruct (String.eqb s "up"); [done |].
    destruct (String.eqb s "down"); [done |].
    destruct (String.eqb s "enter"); [done |].
    destruct (String.eqb s " "); [done |]. reflexivity. }
  split; [done |]. unfold updateInputs at 1 2 3 4 5 6 7 8 9. simp_model.
  split_and!; try done; try apply ti_Update_focus.
  intros Hrow. rewrite E.
  destruct (Inv_blurred_before m items HI Hi Hrow) as [Hf1 Hf2].
  by rewrite updateInputs_blurred.
Qed.

(** X11, witness: the letter "x" on the row of "eggs" changes nothing. *)
Lemma unhandled_message_only_edits_text_witness :
  Update (H := SimpleLib) (KeyMsg "x") on_eggs = Some (mkOutcome on_eggs cmdOther None).
Proof.
  destruct (unhandled_message_only_edits_text (L := SimpleLib) on_eggs [milk; eggs]
              (KeyMsg "x") on_eggs_reachable eq_refl eq_refl)
    as (_ & _ & _ & _ & _ & _ & _ & _ & _ & _ & H).
  apply H. vm_compute. reflexivity.
Defined.




(** X13. Whatever snapshot was loaded, the program starts with the first
    list selected, both fields empty and exactly one of them focused, with
    the cursor on its row: the add-item row of the first list when a key
    exists, the add-list row (the only row) otherwise. *)
Theorem initial_model_spec
    (loaded : gmap string (list listItem) * list string) :
  exists m items,
    initialModel loaded = Some m /\
    lists m = loaded.1 /\ keys m = loaded.2 /\ selectedList m = 0 /\
    selectedItems m = Some items /\
    Value (textInput m) = "" /\ Value (newListTextInput m) = "" /\
    (if 0 <? len (keys m)
     then cursor m = len (keys m) + len items /\
          total m = Some (cursor m + 2) /\
          focus (textInput m) = true /\ focus (newListTextInput m) = false
     else cursor m = 0 /\
          total m = Some 1 /\
          focus (textInput m) = false /\ focus (newListTextInput m) = true).
Proof.
  destruct loaded as [l k]. unfold initialModel, total, selectedItems.
  pose proof (len_nonneg k) as Hk.
  destruct (0 <? len k) eqn:E.
  - destruct (index_in_range k 0) as [key Hkey]; [lia |].
    rewrite Hkey. simpl mbind.
    eexists _, (mapget l key). split; [reflexivity |]. simp_model.
    rewrite ?E, ?Hkey. simpl mbind. rewrite ?E.
    split_and!; try done; [lia | f_equal; lia].
  - simpl mbind. eexists _, []. split; [reflexivity |]. simp_model.
    rewrite ?E. simpl mbind. rewrite ?E.
    pose proof (@len_nil listItem).
    split_and!; try done. f_equal. lia.
Qed.

(** X14. Deleting a list other than the selected one keeps the selection on
    the same list: in a reachable model with the cursor on a key row that
    is not the selected key, after the delete key [selectedList] indexes
    the same key name as before, and, unless the deleted key had that very
    name, the item rows are the same items. *)
Theorem delete_other_list_keeps_selection `{L : TextLib} (m : model) :
  reachable m -> 0 <= cursor m < len (keys m) -> cursor m <> selectedList m ->
  exists deleted chosen o,
    index (keys m) (cursor m) = Some deleted /\
    index (keys m) (selectedList m) = Some chosen /\
    Update (KeyMsg "d") m = Some o /\
    index (keys (next o)) (selectedList (next o)) = Some chosen /\
    (chosen <> deleted ->
       selectedItems (next o) = Some (mapget (lists m) chosen)).
Proof.
  intros Hm [Hlo Hrow] Hne. pose proof (reachable_Inv m Hm) as HI.
  pose proof HI as [_ Hs (items & Hi & _)].
  destruct (deleteList_spec m HI Hrow)
    as (deleted & o & Hdel & E & _ & _ & Hkeys & Hlen & Hlists & _ & _ & Hpos).
  destruct (index_in_range (keys m) (selectedList m)) as [chosen Hch]; [lia |].
  specialize (Hs ltac:(lia)).
  destruct Hpos as (Hsel & _ & Hrange & _); [lia |].
  exists deleted, chosen, o. split; [done |]. split; [done |]. split.
  { rewrite (Update_d m items Hi). case_if; [done | lia]. }
  assert (Hidx : index (keys (next o)) (selectedList (next o)) = Some chosen).
  { apply index_Some in Hch as [_ Hch]. apply index_Some. split; [lia |].
    rewrite Hkeys, Hsel. repeat case_if; try lia.
    - rewrite list_lookup_delete_ge by lia.
      by replace (S (Z.to_nat (selectedList m - 1))) with (Z.to_nat (selectedList m)) by lia.
    - by rewrite list_lookup_delete_lt by lia. }
  split; [done |]. intros Hdiff.
  rewrite (selectedItems_key _ chosen Hidx). rewrite Hlists.
  unfold mapget. by rewrite lookup_delete_ne.
Qed.

(** X14, witness: with "B" selected, deleting "A" leaves "B" selected. *)
Lemma delete_other_list_keeps_selection_witness :
  exists o,
    Update (H := SimpleLib) (KeyMsg "d") on_key_A = Some o /\
    index (keys (next o)) (selectedList (next o)) = Some "B".
Proof.
  destruct (delete_other_list_keeps_selection (L := SimpleLib) on_key_A
              on_key_A_reachable)
    as (deleted & chosen & o & _ & Hch & E & Hidx & _).
  - vm_compute. split; [discriminate | reflexivity].
  - vm_compute. discriminate.
  - vm_compute in Hch. injection Hch as <-.
    exists o. split; [exact E | exact Hidx].
Defined.

(** * The single-list variant *)

(** The invariant of the single-list model: the cursor is on an item row or
    on the input row, and the field is focused exactly on the input row. *)
Lemma single_Update_Inv `{L : TextLib} (msg : Msg) (m : Single.model) :
  0 <= Single.cursor m <= len (Single.items m) ->
  (focus (Single.textInput m) = true <-> Single.cursor m = len (Single.items m)) ->
  exists o,
    Single.Update msg m = Some o /\
    0 <= Single.cursor (Single.next o) <= len (Single.items (Single.next o)) /\
    (focus (Single.textInput (Single.next o)) = true <->
       Single.cursor (Single.next o) = len (Single.items (Single.next o))).
Proof.
  intros Hc Hf. unfold Single.Update.
  assert (Hin : exists o, Some (Single.updateInput msg m) = Some o /\
            0 <= Single.cursor (Single.next o) <= len (Single.items (Single.next o)) /\
            (focus (Single.textInput (Single.next o)) = true <->
             Single.cursor (Single.next o) = len (Single.items (Single.next o)))).
  { eexists. split; [reflexivity |]. simpl. by rewrite ti_Update_focus. }
  assert (Htog : (Single.cursor m =? len (Single.items m)) = false ->
            exists o, (Single.toggle m ≫= fun m => Some (Single.updateInput msg m)) = Some o /\
            0 <= Single.cursor (Single.next o) <= len (Single.items (Single.next o)) /\
            (focus (Single.textInput (Single.next o)) = true <->
             Single.cursor (Single.next o) = len (Single.items (Single.next o)))).
  { intros Hne. unfold Single.toggle.
    destruct (index_in_range (Single.items m) (Single.cursor m)) as [it ->]; [lia |].
    simpl mbind. eexists. split; [reflexivity |]. simpl.
    rewrite ti_Update_focus, len_insert. done. }
  destruct msg as [s |]; [| done].
  destruct (String.eqb s "ctrl+c" || String.eqb s "q").
  { case_if; [done |]. eexists. split; [reflexivity |]. done. }
  destruct (String.eqb s "tab" || String.eqb s "shift+tab"
            || String.eqb s "up" || String.eqb s "down").
  { eexists. split; [reflexivity |]. simpl.
    pose proof (len_nonneg (Single.items m)).
    repeat case_if; simpl; (split; [lia |]); split; first [done | lia]. }
  destruct (String.eqb s "enter").
  { destruct (Single.cursor m =? len (Single.items m)) eqn:E; simpl negb; cbv iota.
    - eexists. split; [reflexivity |]. simpl. rewrite len_snoc.
      split; [lia |]. split; [lia |]. intros _. apply Hf. lia.
    - by apply Htog. }
  destruct (String.eqb s " "); [| done].
  destruct (Single.cursor m =? len (Single.items m)) eqn:E; simpl negb; cbv iota.
  - done.
  - by apply Htog.
Qed.

Lemma single_run_Inv `{L : TextLib} (msgs : list Msg) :
  forall m : Single.model,
    0 <= Single.cursor m <= len (Single.items m) ->
    (focus (Single.textInput m) = true <-> Single.cursor m = len (Single.items m)) ->
    exists m' saves,
      Single.run msgs m = Some (m', saves) /\
      0 <= Single.cursor m' <= len (Single.items m') /\
      (focus (Single.textInput m') = true <-> Single.cursor m' = len (Single.items m')).
Proof.
  induction msgs as [| msg rest IH]; intros m Hc Hf.
  - by exists m, [].
  - destruct (single_Update_Inv msg m Hc Hf) as (o & E & Hc' & Hf').
    simpl Single.run. rewrite E. simpl mbind.
    destruct (Single.cmd o).
    + by eexists _, _.
    + destruct (IH (Single.next o) Hc' Hf') as (m' & saves & -> & H).
      simpl. by eexists _, _.
Qed.

(** X15. The single-list program of [src/main.go] never panics: whatever
    items were loaded and whatever messages follow, it reaches a model
    whose cursor is on an item row or on the input row (0 <= cursor <=
    number of items), and whose text field is focused exactly when the
    cursor is on the input row. *)
Theorem single_cursor_in_range `{L : TextLib}
    (loaded : list listItem) (msgs : list Msg) :
  exists m saves,
    Single.start loaded msgs = Some (m, saves) /\
    0 <= Single.cursor m <= len (Single.items m) /\
    (focus (Single.textInput m) = true <-> Single.cursor m = len (Single.items m)).
Proof.
  apply single_run_Inv; simpl.
  - pose proof (len_nonneg loaded). lia.
  - done.
Qed.

(** X16. In the single-list model a move key steps the cursor by one and
    wraps it modulo the number of items plus one, leaves the items and the
    text of the field alone, and focuses the field exactly when the cursor
    ends on the input row: here the focus follows the wrapped cursor. *)
Theorem single_move_spec `{L : TextLib} (m : Single.model) (s : string) :
  0 <= Single.cursor m <= len (Single.items m) ->
  s = "tab" \/ s = "shift+tab" \/ s = "up" \/ s = "down" ->
  let stepped :=
    if String.eqb s "up" || String.eqb s "shift+tab"
    then Single.cursor m - 1 else Single.cursor m + 1 in
  exists o,
    Single.Update (KeyMsg s) m = Some o /\
    Single.cursor (Single.next o) = stepped mod (len (Single.items m) + 1) /\
    (focus (Single.textInput (Single.next o)) = true <->
       Single.cursor (Single.next o) = len (Single.items m)) /\
    Single.items (Single.next o) = Single.items m /\
    Value (Single.textInput (Single.next o)) = Value (Single.textInput m) /\
    Single.cmd o = cmdOther /\ Single.saved o = None.
Proof.
  intros Hc Hs stepped. subst stepped.
  pose proof (len_nonneg (Single.items m)) as Hn.
  assert (E : Single.Update (KeyMsg s) m =
    Some (Single.mkOutcome
            (Single.mkModel (Single.items m)
               (let c := if String.eqb s "up" || String.eqb s "shift+tab"
                         then Single.cursor m - 1 else Single.cursor m + 1 in
                if len (Single.items m) <? c then 0
                else if c <? 0 then len (Single.items m) else c)
               (let c := if String.eqb s "up" || String.eqb s "shift+tab"
                         then Single.cursor m - 1 else Single.cursor m + 1 in
                let c := if len (Single.items m) <? c then 0
                         else if c <? 0 then len (Single.items m) else c in
                if len (Single.items m) =? c
                then ti_SetStyle focusedStyle (ti_Focus (Single.textInput m))
                else ti_SetStyle noStyle (ti_Blur (Single.textInput m))))
            cmdOther None)).
  { destruct Hs as [-> | [-> | [-> | ->]]]; reflexivity. }
  eexists. split; [exact E |]. simpl.
  destruct (String.eqb s "up" || String.eqb s "shift+tab");
    repeat case_if; simpl; try (exfalso; lia);
    (split; [ first [ by rewrite Z.mod_small by lia
                    | apply (Z.mod_unique _ _ (-1)); lia
                    | apply (Z.mod_unique _ _ 1); lia ] |]);
    split_and!; try done; split; intros; first [done | lia | exfalso; lia].
Qed.

(** X16, witness: with one item, "up" on row 0 wraps to the input row
    (row 1) and focuses the field. *)
Lemma single_move_spec_witness :
  exists o,
    Single.Update (H := SimpleLib) (KeyMsg "up")
      (Single.mkModel [milk] 0 ti_New) = Some o /\
    Single.cursor (Single.next o) = 1 /\
    focus (Single.textInput (Single.next o)) = true.
Proof.
  destruct (single_move_spec (L := SimpleLib) (Single.mkModel [milk] 0 ti_New) "up")
    as (o & E & _).
  - vm_compute. split; discriminate.
  - right. right. left. reflexivity.
  - exists o. split; [exact E |].
    vm_compute in E. injection E as <-. split; reflexivity.
Defined.

Lemma single_toggle_step `{L : TextLib} (m : Single.model) (space : bool) :
  0 <= Single.cursor m < len (Single.items m) ->
  focus (Single.textInput m) = false ->
  exists it,
    index (Single.items m) (Single.cursor m) = Some it /\
    Single.Update (toggleKey space) m =
      Some (Single.mkOutcome
              (Single.mkModel
                 (<[Z.to_nat (Single.cursor m) :=
                      mkItem (Item it) (negb (Completed it))]> (Single.items m))
                 (Single.cursor m) (Single.textInput m))
              cmdOther None).
Proof.
  intros Hc Hf.
  destruct (index_in_range (Single.items m) (Single.cursor m) Hc) as [it Hit].
  exists it. split; [done |].
  assert (E : (Single.cursor m =? len (Single.items m)) = false) by lia.
  destruct space; unfold Single.Update, toggleKey; simpl; rewrite E; simpl;
    unfold Single.toggle; rewrite Hit; simpl;
    unfold Single.updateInput; simpl; by rewrite ti_Update_blurred.
Qed.

(** X17. In the single-list model, with the cursor on an item row and the
    field blurred (as it is on every item row the program reaches), the
    confirm key and the space key both flip the completed flag of that
    item, and two such key presses give back the model as it was. *)
Theorem single_toggle_twice_restores `{L : TextLib} (m : Single.model)
    (first second : bool) :
  0 <= Single.cursor m < len (Single.items m) ->
  focus (Single.textInput m) = false ->
  exists it o1 o2,
    index (Single.items m) (Single.cursor m) = Some it /\
    Single.Update (toggleKey first) m = Some o1 /\
    Single.items (Single.next o1) =
      <[Z.to_nat (Single.cursor m) := mkItem (Item it) (negb (Completed it))]>
        (Single.items m) /\
    Single.Update (toggleKey second) (Single.next o1) = Some o2 /\
    Single.next o2 = m.
Proof.
  intros Hc Hf.
  destruct (single_toggle_step m first Hc Hf) as (it & Hit & E1).
  set (m1 := Single.mkModel
               (<[Z.to_nat (Single.cursor m) :=
                    mkItem (Item it) (negb (Completed it))]> (Single.items m))
               (Single.cursor m) (Single.textInput m)) in *.
  destruct (single_toggle_step m1 second) as (it1 & Hit1 & E2).
  { unfold m1. simpl. by rewrite len_insert. }
  { done. }
  exists it. eexists _, _. split; [done |]. split; [exact E1 |].
  split; [reflexivity |]. split; [exact E2 |]. simpl.
  unfold m1 in Hit1 |- *. simpl in Hit1 |- *.
  apply index_Some in Hit as [_ Hit]. apply index_Some in Hit1 as [_ Hit1].
  rewrite list_lookup_insert_eq in Hit1 by (by eapply lookup_lt_Some).
  injection Hit1 as <-. simpl.
  rewrite negb_involutive, list_insert_insert_eq.
  replace (mkItem (Item it) (Completed it)) with it by (by destruct it).
  rewrite (list_insert_id _ _ _ Hit). by destruct m.
Qed.

(** X17, witness: confirm, then space, on the one item "milk". *)
Lemma single_toggle_twice_restores_witness :
  exists o1 o2,
    Single.Update (H := SimpleLib) (KeyMsg "enter")
      (Single.mkModel [milk] 0 ti_New) = Some o1 /\
    Single.items (Single.next o1) = [mkItem "milk" true] /\
    Single.Update (H := SimpleLib) (KeyMsg " ") (Single.next o1) = Some o2 /\
    Single.next o2 = Single.mkModel [milk] 0 ti_New.
Proof.
  destruct (single_toggle_twice_restores (L := SimpleLib)
              (Single.mkModel [milk] 0 ti_New) false true)
    as (it & o1 & o2 & Hit & E1 & H1 & E2 & H2).
  - vm_compute. split; [discriminate | reflexivity].
  - reflexivity.
  - vm_compute in Hit. injection Hit as <-.
    exists o1, o2. split; [exact E1 |]. split; [exact H1 |].
    split; [exact E2 | exact H2].
Defined.

(** X18. Saving the single-list model and loading the file gives back its
    items, in order, if the JSON text syntax reads back the array it
    printed and the output is not empty. *)
Theorem single_save_load_round_trip `{J : JsonText} (m : Single.model)
    (file : option string) :
  parse (render (encode_items (Single.items m))) = Some (encode_items (Single.items m)) ->
  render (encode_items (Single.items m)) <> "" ->
  exists file',
    Single.SaveItems m file = Some file' /\
    Single.loadItems (Some file') = Some (Single.items m).
Proof.
  intros Hparse Hne. eexists. split; [reflexivity |].
  unfold Single.loadItems.
  destruct (render (encode_items (Single.items m))) as [| a r] eqn:E; [done |].
  simpl String.length. simpl Nat.eqb. cbv iota.
  rewrite Hparse. cbn [mbind option_bind]. apply decode_items_encode.
Qed.

(** X18, witness: milk and eggs, with the compact JSON syntax. *)
Lemma single_save_load_round_trip_witness :
  Single.loadItems (H := CompactJson)
    (Single.SaveItems (H := CompactJson) (Single.mkModel [milk; eggs] 2 ti_New) None)
  = Some [milk; eggs].
Proof.
  destruct (single_save_load_round_trip (J := CompactJson)
              (Single.mkModel [milk; eggs] 2 ti_New) None)
    as (file' & Hsave & Hload).
  - vm_compute. reflexivity.
  - vm_compute. discriminate.
  - rewrite Hsave, Hload. reflexivity.
Defined.



(** * The first variant *)

Lemma basic_Update_empty (msg : Msg) (m : Basic.model) :
  Basic.items m = [] -> Basic.cursor m = 0 ->
  Basic.items (Basic.next (Basic.Update msg m)) = [] /\
  Basic.cursor (Basic.next (Basic.Update msg m)) = 0 /\
  (forall d, Basic.saved (Basic.Update msg m) = Some d -> d = []).
Proof.
  intros Hi Hc. unfold Basic.Update.
  destruct msg as [s |]; [| done].
  repeat case_if; simpl; rewrite ?Hi, ?Hc in *; simpl in *;
    split_and!; try done; try lia; intros d [= <-]; done.
Qed.

Lemma basic_run_empty (msgs : list Msg) :
  forall m : Basic.model,
    Basic.items m = [] -> Basic.cursor m = 0 ->
    Basic.items (Basic.run msgs m).1 = [] /\
    Basic.cursor (Basic.run msgs m).1 = 0 /\
    (forall d, d ∈ (Basic.run msgs m).2 -> d = []).
Proof.
  induction msgs as [| msg rest IH]; intros m Hi Hc.
  - simpl. split_and!; try done. intros d Hd. by apply elem_of_nil in Hd.
  - destruct (basic_Update_empty msg m Hi Hc) as (Hi' & Hc' & Hs').
    simpl Basic.run.
    assert (Hsaved : forall d,
              d ∈ from_option (fun d => [d]) [] (Basic.saved (Basic.Update msg m)) ->
              d = []).
    { intros d. destruct (Basic.saved (Basic.Update msg m)) as [d' |]; simpl.
      - intros Hd. apply list_elem_of_singleton in Hd as ->. by apply Hs'.
      - intros Hd. by apply elem_of_nil in Hd. }
    destruct (Basic.cmd (Basic.Update msg m)); simpl.
    + split_and!; done.
    + destruct (IH _ Hi' Hc') as (Hi2 & Hc2 & Hs2).
      split_and!; try done. intros d Hd.
      apply elem_of_app in Hd as [Hd | Hd]; [by apply Hsaved | by apply Hs2].
Qed.

(** X20. The first variant never shows what it saved.  [LoadItems] has a
    value receiver and assigns the loaded items to its own copy of the
    model, so whatever the file holds, a program that starts at all starts
    with no items; no message adds one, the cursor stays on row 0, and what
    a quit saves is the empty list, which replaces the file's content. *)
Theorem basic_loaded_items_are_dropped `{J : JsonText} (file : option string)
    (msgs : list Msg) (m : Basic.model) (saves : list (list listItem)) :
  Basic.start file msgs = Some (m, saves) ->
  Basic.items m = [] /\ Basic.cursor m = 0 /\
  forall d, d ∈ saves -> d = [].
Proof.
  unfold Basic.start, Basic.initialModel.
  destruct (Basic.LoadItems _ file) as [loaded |]; [| done].
  simpl mbind. intros [= E].
  pose proof (basic_run_empty msgs (Basic.mkModel [] 0 ∅) eq_refl eq_refl) as H.
  rewrite E in H. exact H.
Qed.

(** X20, witness: the file holds milk and eggs; after "down", the confirm
    key and "q" the model has no item and the save is the empty list. *)
Lemma basic_loaded_items_are_dropped_witness :
  exists m,
    Basic.LoadItems (H := CompactJson) (Basic.mkModel [] 0 ∅)
      (Some (render (JsonText := CompactJson) (encode_items [milk; eggs])))
    = Some (Basic.mkModel [milk; eggs] 0 ∅) /\
    Basic.start (H := CompactJson)
      (Some (render (JsonText := CompactJson) (encode_items [milk; eggs])))
      [KeyMsg "down"; KeyMsg "enter"; KeyMsg "q"] = Some (m, [[]]) /\
    Basic.items m = [].
Proof.
  eexists. split; [vm_compute; reflexivity |].
  assert (E : Basic.start (H := CompactJson)
                (Some (render (JsonText := CompactJson) (encode_items [milk; eggs])))
                [KeyMsg "down"; KeyMsg "enter"; KeyMsg "q"]
              = Some (Basic.mkModel [] 0 {[0]}, [[]])).
  { vm_compute. reflexivity. }
  split; [exact E |].
  exact (proj1 (basic_loaded_items_are_dropped _ _ _ _ E)).
Defined.

(** X21. In the first variant the confirm key and the space key toggle the
    membership of the cursor row in the selection; two such key presses, in
    any model, give back the model as it was. *)
Theorem basic_toggle_twice_restores (m : Basic.model) (first second : bool) :
  Basic.selected (Basic.next (Basic.Update (toggleKey first) m)) =
    (if decide (Basic.cursor m ∈ Basic.selected m)
     then Basic.selected m ∖ {[Basic.cursor m]}
     else {[Basic.cursor m]} ∪ Basic.selected m) /\
  Basic.next (Basic.Update (toggleKey second)
                (Basic.next (Basic.Update (toggleKey first) m))) = m.
Proof.
  assert (Hstep : forall (b : bool) (m : Basic.model),
            Basic.next (Basic.Update (toggleKey b) m) =
              if decide (Basic.cursor m ∈ Basic.selected m)
              then Basic.mkModel (Basic.items m) (Basic.cursor m)
                                 (Basic.selected m ∖ {[Basic.cursor m]})
              else Basic.mkModel (Basic.items m) (Basic.cursor m)
                                 ({[Basic.cursor m]} ∪ Basic.selected m)).
  { intros [|] m'; reflexivity. }
  split.
  - rewrite Hstep. by destruct (decide _).
  - rewrite !Hstep.
    destruct m as [its c sel]. simpl.
    destruct (decide (c ∈ sel)) as [Hin | Hout]; simpl.
    + destruct (decide (c ∈ sel ∖ {[c]})) as [Hin' | _].
      { apply elem_of_difference in Hin' as [_ Hc].
        exfalso. apply Hc. by apply elem_of_singleton. }
      f_equal. apply set_eq. intros x.
      rewrite elem_of_union, elem_of_difference, elem_of_singleton.
      destruct (decide (x = c)) as [-> | Hx]; tauto.
    + destruct (decide (c ∈ {[c]} ∪ sel)) as [_ | Hout'].
      2: { exfalso. apply Hout'. apply elem_of_union. left.
           by apply elem_of_singleton. }
      f_equal. apply set_eq. intros x.
      rewrite elem_of_difference, elem_of_union, elem_of_singleton.
      destruct (decide (x = c)) as [-> | Hx]; tauto.
Qed.

(** X22. In the first variant the cursor does not wrap: if it is on a row
    of the list (or on row 0 of an empty list), then after any message it
    still is, having moved by at most one; "up" on the first row and "down"
    on the last leave it where it is, and no message changes the items. *)
Theorem basic_cursor_is_clamped (m : Basic.model) (msg : Msg) :
  0 <= Basic.cursor m <= Z.max 0 (len (Basic.items m) - 1) ->
  let m' := Basic.next (Basic.Update msg m) in
  0 <= Basic.cursor m' <= Z.max 0 (len (Basic.items m') - 1) /\
  Basic.cursor m - 1 <= Basic.cursor m' <= Basic.cursor m + 1 /\
  Basic.items m' = Basic.items m /\
  (Basic.cursor m = 0 -> msg = KeyMsg "up" -> Basic.cursor m' = 0) /\
  (Basic.cursor m = Z.max 0 (len (Basic.items m) - 1) -> msg = KeyMsg "down" ->
     Basic.cursor m' = Basic.cursor m).
Proof.
  intros Hc m'. subst m'. pose proof (len_nonneg (Basic.items m)) as Hn.
  split; [| split; [| split; [| split]]].
  - unfold Basic.Update. destruct msg as [s |]; [| simpl; lia].
    repeat case_if; simpl; lia.
  - unfold Basic.Update. destruct msg as [s |]; [| simpl; lia].
    repeat case_if; simpl; lia.
  - unfold Basic.Update. destruct msg as [s |]; [| done].
    repeat case_if; done.
  - intros H0 ->. simpl. case_if; simpl; lia.
  - intros Hlast ->. simpl. case_if; simpl; lia.
Qed.

(** X22, witness: three items, the cursor on the last; "down" stays. *)
Lemma basic_cursor_is_clamped_witness :
  Basic.cursor (Basic.next (Basic.Update (KeyMsg "down")
                              (Basic.mkModel [milk; eggs; milk] 2 ∅))) = 2.
Proof.
  destruct (basic_cursor_is_clamped (Basic.mkModel [milk; eggs; milk] 2 ∅)
              (KeyMsg "down")) as (_ & _ & _ & _ & H).
  - vm_compute. split; discriminate.
  - apply H; reflexivity.
Defined.
